(** * flowsint map panel: the Panel Controller (map-panel.tsx) and the
      Map Renderer (map.tsx), embedded as pure functions.

    JavaScript values are modelled as the code uses them:
    - a [number] is an IEEE-754 binary64 value (Rocq's primitive floats);
    - a string is its sequence of UTF-16 code units;
    - an optional property ([lat?: number]) is an [option], [None] standing
      for [undefined];
    - an array is a [list].
    React hooks are unfolded into the values they compute on one render; the
    calls made on the Leaflet widget are recorded in the order they are issued.
    [MapFromAddress] is the render, [effect] the calls of the effect's body when
    Leaflet accepts them all, and [MapFromAddress_mount] one mount of the
    component: the render, then the effect with the calls Leaflet refuses. *)

From Stdlib Require Import Ascii String DecimalString Uint63 Floats.
From Stdlib Require Import Bool Arith NArith ZArith Lia List.
Import ListNotations.

Set Implicit Arguments.

(* ------------------------------------------------------------------ *)
(** ** JavaScript strings, numbers and truthiness *)

Definition code_unit := N.
Definition jsstring := list code_unit.
Definition number := float.

(** A string literal of the source (ASCII only) as code units. *)
Definition js (s : string) : jsstring := map N_of_ascii (list_ascii_of_string s).

(** [a === b] on strings. *)
Fixpoint str_eqb (a b : jsstring) : bool :=
  match a, b with
  | [], [] => true
  | x :: a', y :: b' => N.eqb x y && str_eqb a' b'
  | _, _ => false
  end.

(** [a === b] on values that are a string or [undefined]. *)
Definition ostr_eqb (a b : option jsstring) : bool :=
  match a, b with
  | None, None => true
  | Some x, Some y => str_eqb x y
  | _, _ => false
  end.

(** ToBoolean: [0], [-0] and [NaN] are falsy numbers, [''] is the falsy
    string, [undefined] is falsy. *)
Definition truthy_num (x : number) : bool :=
  negb (PrimFloat.eqb x 0 || PrimFloat.is_nan x).

Definition truthy_str (s : jsstring) : bool :=
  match s with [] => false | _ :: _ => true end.

Definition truthy_onum (x : option number) : bool :=
  match x with Some v => truthy_num v | None => false end.

Definition truthy_ostr (x : option jsstring) : bool :=
  match x with Some s => truthy_str s | None => false end.

(** [a || b] where [a] may be [undefined] and [b] is a number (line 20):
    [a] when it is truthy, [b] otherwise. *)
Definition or_number (a : option number) (b : number) : number :=
  match a with
  | Some x => if truthy_num x then x else b
  | None => b
  end.

(** [a || b] where both may be [undefined] (the first half of line 22). *)
Definition or_else (a b : option jsstring) : option jsstring :=
  if truthy_ostr a then a else b.

(** [a || s] where [s] is a string (the second half of line 22). *)
Definition or_string (a : option jsstring) (s : jsstring) : jsstring :=
  match a with
  | Some x => if truthy_str x then x else s
  | None => s
  end.

Definition is_undefined {A : Type} (x : option A) : bool :=
  match x with None => true | Some _ => false end.

(** [findIndex]: [None] stands for [-1]. *)
Fixpoint findIndex {A : Type} (p : A -> bool) (l : list A) : option nat :=
  match l with
  | [] => None
  | x :: r => if p x then Some 0 else option_map S (findIndex p r)
  end.

(* ------------------------------------------------------------------ *)
(** ** The renderer's input types (map.tsx, lines 9-32) *)

Record LocationPoint := {
  lat : option number;
  lon : option number;
  address : option jsstring;
  label : option jsstring;
  isOrigin : option bool;
  isDestination : option bool;
  geometry : option jsstring;
  nodeType : option jsstring
}.

Module Route.
Record RouteData := {
  coordinates : list (number * number);
  distanceM : option number;
  color : option jsstring
}.
End Route.

(* ------------------------------------------------------------------ *)
(** ** Graph store values read by the panel (map-panel.tsx, lines 8-12) *)

Module Graph.
Record NodeProperties := {
  latitude : option number;
  longitude : option number;
  address : option jsstring;
  name : option jsstring;
  label : option jsstring;
  geometry : option jsstring
}.

Record GraphNode := {
  nodeId : jsstring;
  nodeType : jsstring;
  nodeProperties : NodeProperties
}.
End Graph.

(* ------------------------------------------------------------------ *)
(** ** Panel Controller: [locationNodes] (map-panel.tsx, lines 17-28) *)

(** The body posted to [/api/routing/shortest-path] (lines 38-43). *)
Record RouteRequest := {
  sketch_id : option jsstring;
  origin_node_id : jsstring;
  destination_node_id : jsstring;
  algorithm : jsstring
}.

(** [queryKey] without its constant head ['route'] (line 31). *)
Definition QueryKey : Type := option jsstring * list jsstring.

Section PanelController.

Variable nodes : list Graph.GraphNode.
Variable selectedNodes : list Graph.GraphNode.
Variable sketchId : option jsstring.

(** The [filter] callback of line 18. *)
Definition isLocationNode (node : Graph.GraphNode) : bool :=
  str_eqb (Graph.nodeType node) (js "location")
  || str_eqb (Graph.nodeType node) (js "place")
  || str_eqb (Graph.nodeType node) (js "building")
  || (truthy_onum (Graph.latitude (Graph.nodeProperties node))
      && truthy_onum (Graph.longitude (Graph.nodeProperties node))).

(** [selectedNodes.length === 2 && node.nodeId === selectedNodes[i].nodeId];
    the element is read only when the length test has passed. *)
Definition isSelectedAt (i : nat) (node : Graph.GraphNode) : bool :=
  (length selectedNodes =? 2)
  && match nth_error selectedNodes i with
     | Some s => str_eqb (Graph.nodeId node) (Graph.nodeId s)
     | None => false
     end.

(** The [map] callback of lines 19-28. *)
Definition toLocationPoint (node : Graph.GraphNode) : LocationPoint :=
  let p := Graph.nodeProperties node in
  {| lat := Some (or_number (Graph.latitude p) 0%float);
     lon := Some (or_number (Graph.longitude p) 0%float);
     address := Some (or_string (or_else (Graph.address p) (Graph.name p)) []);
     label := Some (or_string (or_else (Graph.label p) (Graph.name p)) []);
     isOrigin := Some (isSelectedAt 0 node);
     isDestination := Some (isSelectedAt 1 node);
     geometry := Graph.geometry p;
     nodeType := Some (Graph.nodeType node) |}.

Definition locationNodes : list LocationPoint :=
  map toLocationPoint (filter isLocationNode nodes).

(** *** [routeQuery] (lines 30-51) *)

Definition routeQuery_queryKey : QueryKey :=
  (sketchId, map Graph.nodeId selectedNodes).

(** [queryFn] (lines 32-48): [None] is the early [return null] of line 33,
    [Some r] the [fetch] of [r]. *)
Definition routeQuery_queryFn : option RouteRequest :=
  match selectedNodes with
  | [a; b] =>
      Some {| sketch_id := sketchId;
              origin_node_id := Graph.nodeId a;
              destination_node_id := Graph.nodeId b;
              algorithm := js "dijkstra" |}
  | _ => None
  end.

(** [enabled] (line 49). *)
Definition routeQuery_enabled : bool :=
  truthy_ostr sketchId && (length selectedNodes =? 2).

End PanelController.

(** *** A render against a query cache

    The query library is outside the repository, and how often it runs
    [queryFn] for a key (stale entries, refetch on focus or on a key that
    comes back) is its configuration, which this repository does not set.
    [MapPanel_render] is only the least a cache does: a render whose query is
    not [enabled] sends nothing, and a render whose query is [enabled] and
    whose key has no entry runs [queryFn]. Nothing below relies on it for how
    many times an enabled key is fetched. *)

Fixpoint list_eqb (a b : list jsstring) : bool :=
  match a, b with
  | [], [] => true
  | x :: a', y :: b' => str_eqb x y && list_eqb a' b'
  | _, _ => false
  end.

Definition key_eqb (a b : QueryKey) : bool :=
  ostr_eqb (fst a) (fst b) && list_eqb (snd a) (snd b).

Definition QueryCache := list QueryKey.

Definition cached (c : QueryCache) (k : QueryKey) : bool :=
  existsb (key_eqb k) c.

(** One panel state: what the hooks of lines 8-12 return on a render. *)
Record PanelState := {
  nodes : list Graph.GraphNode;
  selectedNodes : list Graph.GraphNode;
  sketchId : option jsstring
}.

(** One render of [MapPanel] against the query cache: the new cache and the
    route requests this render sends, each with its key. *)
Definition MapPanel_render (c : QueryCache) (st : PanelState)
  : QueryCache * list (QueryKey * RouteRequest) :=
  let k := routeQuery_queryKey (selectedNodes st) (sketchId st) in
  if routeQuery_enabled (selectedNodes st) (sketchId st) && negb (cached c k)
  then (k :: c,
        match routeQuery_queryFn (selectedNodes st) (sketchId st) with
        | Some r => [(k, r)]
        | None => []
        end)
  else (c, []).

(** A sequence of renders, oldest first. *)
Fixpoint MapPanel_renders (c : QueryCache) (sts : list PanelState)
  : QueryCache * list (QueryKey * RouteRequest) :=
  match sts with
  | [] => (c, [])
  | st :: rest =>
      let '(c1, sent1) := MapPanel_render c st in
      let '(c2, sent2) := MapPanel_renders c1 rest in
      (c2, sent1 ++ sent2)
  end.


(* ------------------------------------------------------------------ *)
(** ** Built-ins used by the renderer: [JSON.stringify], [btoa], [replace] *)

Inductive exn := InvalidCharacterError.

Inductive result (A : Type) :=
| Ok (a : A)
| Throw (e : exn).
Arguments Throw {A} e.

Definition hex_digit (d : N) : code_unit :=
  nth (N.to_nat d) (js "0123456789abcdef") 0%N.

(** [\uXXXX] with four lower-case hexadecimal digits. *)
Definition UnicodeEscape (c : code_unit) : jsstring :=
  js "\u" ++ [hex_digit (N.land (N.shiftr c 12) 15); hex_digit (N.land (N.shiftr c 8) 15);
              hex_digit (N.land (N.shiftr c 4) 15); hex_digit (N.land c 15)].

Definition is_leading_surrogate (c : code_unit) : bool :=
  (55296 <=? c)%N && (c <=? 56319)%N.

Definition is_trailing_surrogate (c : code_unit) : bool :=
  (56320 <=? c)%N && (c <=? 57343)%N.

(** One code unit that is not the head of a surrogate pair, as
    QuoteJSONString writes it. *)
Definition quote_unit (c : code_unit) : jsstring :=
  if (c =? 8)%N then js "\b"
  else if (c =? 9)%N then js "\t"
  else if (c =? 10)%N then js "\n"
  else if (c =? 12)%N then js "\f"
  else if (c =? 13)%N then js "\r"
  else if (c =? 34)%N then [92; 34]%N
  else if (c =? 92)%N then [92; 92]%N
  else if (c <? 32)%N || is_leading_surrogate c || is_trailing_surrogate c
       then UnicodeEscape c
  else [c].

Fixpoint quote_units (s : jsstring) : jsstring :=
  match s with
  | [] => []
  | c :: r =>
      if is_leading_surrogate c then
        match r with
        | d :: r' =>
            if is_trailing_surrogate d then c :: d :: quote_units r'
            else UnicodeEscape c ++ quote_units r
        | [] => UnicodeEscape c
        end
      else quote_unit c ++ quote_units r
  end.

Definition QuoteJSONString (s : jsstring) : jsstring :=
  [34%N] ++ quote_units s ++ [34%N].

Fixpoint join (sep : jsstring) (parts : list jsstring) : jsstring :=
  match parts with
  | [] => []
  | [p] => p
  | p :: rest => p ++ sep ++ join sep rest
  end.

(** [btoa]'s alphabet and the encoding of three bytes as four characters. *)
Definition b64_alphabet : jsstring :=
  js "ABCDEFGHIJKLMNOPQRSTUVWXYZabcdefghijklmnopqrstuvwxyz0123456789+/".

Definition b64_char (i : N) : code_unit := nth (N.to_nat i) b64_alphabet 0%N.

Definition b64_pad : code_unit := 61%N.

Fixpoint b64_encode (bytes : list N) : jsstring :=
  match bytes with
  | a :: b :: c :: rest =>
      b64_char (N.shiftr a 2)
      :: b64_char (N.lor (N.shiftl (N.land a 3) 4) (N.shiftr b 4))
      :: b64_char (N.lor (N.shiftl (N.land b 15) 2) (N.shiftr c 6))
      :: b64_char (N.land c 63)
      :: b64_encode rest
  | [a; b] =>
      [b64_char (N.shiftr a 2);
       b64_char (N.lor (N.shiftl (N.land a 3) 4) (N.shiftr b 4));
       b64_char (N.shiftl (N.land b 15) 2);
       b64_pad]
  | [a] =>
      [b64_char (N.shiftr a 2); b64_char (N.shiftl (N.land a 3) 4); b64_pad; b64_pad]
  | [] => []
  end.

Definition is_latin1 (c : code_unit) : bool := (c <=? 255)%N.

(** [btoa(s)]: throws [InvalidCharacterError] when [s] holds a code unit
    above 0xFF. *)
Definition btoa (s : jsstring) : result jsstring :=
  if forallb is_latin1 s then Ok (b64_encode s) else Throw InvalidCharacterError.

Definition is_alnum (c : code_unit) : bool :=
  ((97 <=? c) && (c <=? 122) || (65 <=? c) && (c <=? 90) || (48 <=? c) && (c <=? 57))%N.

(** [s.replace(/[^a-zA-Z0-9]/g, '')]. *)
Definition strip_non_alnum (s : jsstring) : jsstring := filter is_alnum s.

(* ------------------------------------------------------------------ *)
(** ** Map Renderer: [MapFromAddress] (map.tsx) *)

Module Geo.
(** [{ lat: number; lon: number }], a resolved coordinate. *)
Record LatLon := { lat : number; lon : number }.
End Geo.

Module Query.
(** What [useQuery] hands back for the geocoding query: [data] is
    [undefined] until a fetch has succeeded; an entry of [data] is [null]
    where the lookup found nothing. *)
Record Result := {
  data : option (list (option Geo.LatLon));
  isLoading : bool;
  isError : bool
}.
End Query.

Record MapFromAddressProps := {
  locations : list LocationPoint;
  height : option jsstring;
  zoom : option number;
  centerOnFirst : option bool;
  route : option Route.RouteData
}.

Record ProcessedLocation := {
  location : LocationPoint;
  coordinates : option Geo.LatLon;
  isLoading : bool;
  isError : bool
}.

(** Calls on the Leaflet widget. *)
Record Marker := {
  position : number * number;
  iconColor : jsstring;
  zIndexOffset : Z;
  popup : jsstring
}.

Record Polygon := {
  ring : list (option number * option number);
  polygonColor : jsstring;
  polygonPopup : jsstring
}.

Record Polyline := {
  path : list (number * number);
  lineColor : jsstring;
  linePopup : option jsstring
}.

Inductive Bounds :=
| PolylineBounds (p : list (number * number))
| MarkerBounds (ms : list Marker).

Inductive ViewCall :=
| fitBounds (b : Bounds) (pad : number)
| setView (center : number * number) (z : number).

Record MapWidget := {
  container : jsstring;
  tileSource : jsstring;
  markers : list Marker;
  polygons : list Polygon;
  polyline : option Polyline;
  viewCalls : list ViewCall
}.

(** What the component returns on one render. *)
Inductive Rendered :=
| LoadingMapData
| UnableToLoadMap
| NoLocationToDisplay
| MapSurface (id : jsstring) (minHeight : jsstring).

(** *** String helpers of the polygon parser *)

(** [\s] of a regular expression, also what [trim] removes: white space and
    line terminators. *)
Definition is_space (c : code_unit) : bool :=
  ((c =? 9) || (c =? 10) || (c =? 11) || (c =? 12) || (c =? 13) || (c =? 32)
   || (c =? 160) || (c =? 5760) || (8192 <=? c) && (c <=? 8202)
   || (c =? 8232) || (c =? 8233) || (c =? 8239) || (c =? 8287)
   || (c =? 12288) || (c =? 65279))%N.

(** What [.] does not match. *)
Definition is_line_terminator (c : code_unit) : bool :=
  ((c =? 10) || (c =? 13) || (c =? 8232) || (c =? 8233))%N.

(** Case-insensitive comparison of a code unit with an upper-case ASCII
    letter of the pattern (flag [i], no flag [u]: only the two ASCII cases
    of a letter match it). *)
Definition eq_ignore_case (upper c : code_unit) : bool :=
  ((c =? upper) || (c =? upper + 32))%N.

Fixpoint skip_literal_ci (lit s : jsstring) : option jsstring :=
  match lit, s with
  | [], _ => Some s
  | l :: lit', c :: s' => if eq_ignore_case l c then skip_literal_ci lit' s' else None
  | _ :: _, [] => None
  end.

Fixpoint skip_spaces (s : jsstring) : jsstring :=
  match s with
  | c :: r => if is_space c then skip_spaces r else s
  | [] => []
  end.

(** [(.*?)\)\)]: the shortest run without line terminator that is followed
    by two closing parentheses. *)
Fixpoint lazy_group (s : jsstring) : option jsstring :=
  match s with
  | [] => None
  | c :: r =>
      match r with
      | d :: _ =>
          if ((c =? 41) && (d =? 41))%N then Some []
          else if is_line_terminator c then None
          else option_map (cons c) (lazy_group r)
      | [] => None
      end
  end.

(** The pattern [POLYGON\s*\(\((.*?)\)\)] tried at the head of [s]; the
    result is capture group 1. *)
Definition polygon_here (s : jsstring) : option jsstring :=
  match skip_literal_ci (js "POLYGON") s with
  | Some r =>
      match skip_spaces r with
      | p :: q :: body => if ((p =? 40) && (q =? 40))%N then lazy_group body else None
      | _ => None
      end
  | None => None
  end.

(** [wkt.match(/POLYGON\s*\(\((.*?)\)\)/i)]: the leftmost position where
    the pattern matches; [None] is [null]. *)
Fixpoint match_polygon (wkt : jsstring) : option jsstring :=
  match polygon_here wkt with
  | Some g => Some g
  | None =>
      match wkt with
      | [] => None
      | _ :: r => match_polygon r
      end
  end.

(** [s.split(',')]. *)
Fixpoint split_comma (s : jsstring) : list jsstring :=
  match s with
  | [] => [[]]
  | c :: r =>
      if (c =? 44)%N then [] :: split_comma r
      else match split_comma r with
           | h :: t => (c :: h) :: t
           | [] => [[c]]
           end
  end.

(** [s.split(/\s+/)]: [in_run] says that the previous code unit was part
    of a separator. *)
Fixpoint split_spaces_from (in_run : bool) (s : jsstring) : list jsstring :=
  match s with
  | [] => [[]]
  | c :: r =>
      if is_space c then
        if in_run then split_spaces_from true r else [] :: split_spaces_from true r
      else match split_spaces_from false r with
           | h :: t => (c :: h) :: t
           | [] => [[c]]
           end
  end.

Definition split_spaces (s : jsstring) : list jsstring := split_spaces_from false s.

Fixpoint trim_end (s : jsstring) : jsstring :=
  match s with
  | [] => []
  | c :: r =>
      match trim_end r with
      | [] => if is_space c then [] else [c]
      | r' => c :: r'
      end
  end.

Definition trim (s : jsstring) : jsstring := trim_end (skip_spaces s).

Inductive LeafletError := InvalidLatLng.

Section MapFromAddress.

(** Built-ins of the JavaScript runtime and of Leaflet that the component
    calls and that this development does not define:
    - [NumberToString x]: the decimal text of a finite number, as
      [JSON.stringify] and template literals write it;
    - [ToNumber s]: [Number(s)];
    - [toFixed x d]: [x.toFixed(d)];
    - [L_polygon ring]: whether [L.polygon(ring, ...)] accepts the ring or
      throws. *)
Variable NumberToString : number -> jsstring.
Variable ToNumber : jsstring -> number.
Variable toFixed : number -> nat -> jsstring.
Variable L_polygon : list (option number * option number) -> option LeafletError.

(** *** [JSON.stringify(locations)] *)

Definition json_number (x : number) : jsstring :=
  if PrimFloat.is_finite x then NumberToString x else js "null".

Definition json_boolean (b : bool) : jsstring :=
  if b then js "true" else js "false".

(** A property that is [undefined] is left out. *)
Definition member {A : Type} (key : string) (ser : A -> jsstring) (v : option A)
  : list jsstring :=
  match v with
  | Some x => [QuoteJSONString (js key) ++ js ":" ++ ser x]
  | None => []
  end.

(** Properties in the order the panel creates them, which is also the
    order of the type's declaration. *)
Definition stringify_point (p : LocationPoint) : jsstring :=
  js "{" ++
  join (js ",")
    (member "lat" json_number (lat p) ++
     member "lon" json_number (lon p) ++
     member "address" QuoteJSONString (address p) ++
     member "label" QuoteJSONString (label p) ++
     member "isOrigin" json_boolean (isOrigin p) ++
     member "isDestination" json_boolean (isDestination p) ++
     member "geometry" QuoteJSONString (geometry p) ++
     member "nodeType" QuoteJSONString (nodeType p)) ++
  js "}".

Definition JSON_stringify (l : list LocationPoint) : jsstring :=
  js "[" ++ join (js ",") (map stringify_point l) ++ js "]".

(** Line 110, as a function of the point list: the template literal
    around [btoa(JSON.stringify(locations)).replace(...)]. *)
Definition mapId_of (l : list LocationPoint) : result jsstring :=
  match btoa (JSON_stringify l) with
  | Ok b => Ok (js "leaflet-map-" ++ strip_non_alnum b)
  | Throw e => Throw e
  end.

(** *** The component *)

Variable props : MapFromAddressProps.
Variable theme : jsstring.
Variable geocodeQuery : Query.Result.

(** Defaults of the destructured props (lines 36-38). *)
Definition height_ : jsstring :=
  match height props with Some h => h | None => js "400px" end.
Definition zoom_ : number :=
  match zoom props with Some z => z | None => 15%float end.
Definition centerOnFirst_ : bool :=
  match centerOnFirst props with Some b => b | None => true end.

(** Lines 42-44. *)
Definition locationsToGeocode : list LocationPoint :=
  filter (fun loc => is_undefined (lat loc) && is_undefined (lon loc)
                     && truthy_ostr (address loc))
         (locations props).

(** [geocodeQuery]'s options (lines 48 and 69) and the addresses its
    [queryFn] looks up, in order (lines 51-56). *)
Definition geocodeQuery_queryKey : list (option jsstring) :=
  map address locationsToGeocode.

Definition geocodeQuery_enabled : bool := 0 <? length locationsToGeocode.

Definition geocodeQuery_lookups : list jsstring :=
  flat_map (fun location =>
              match address location with
              | Some a => if truthy_str a then [a] else []
              | None => []
              end)
           locationsToGeocode.

(** Lines 73-103. *)
Definition processLocation (location : LocationPoint) : ProcessedLocation :=
  match lat location, lon location with
  | Some la, Some lo =>
      {| location := location;
         coordinates := Some {| Geo.lat := la; Geo.lon := lo |};
         isLoading := false;
         isError := false |}
  | _, _ =>
      match findIndex (fun loc => ostr_eqb (address loc) (address location))
                      locationsToGeocode,
            Query.data geocodeQuery with
      | Some geocodeIndex, Some d =>
          {| location := location;
             coordinates := match nth_error d geocodeIndex with
                            | Some geocoded => geocoded
                            | None => None
                            end;
             isLoading := Query.isLoading geocodeQuery;
             isError := Query.isError geocodeQuery |}
      | _, _ =>
          {| location := location;
             coordinates := None;
             isLoading := Query.isLoading geocodeQuery;
             isError := Query.isError geocodeQuery |}
      end
  end.

Definition processedLocations : list ProcessedLocation :=
  map processLocation (locations props).

(** Lines 106-108. *)
Definition validCoordinates : list Geo.LatLon :=
  flat_map (fun l => match coordinates l with Some c => [c] | None => [] end)
           processedLocations.

(** Line 110. *)
Definition mapId : result jsstring := mapId_of (locations props).

Definition is_dark : bool := str_eqb theme (js "dark").

(** *** The effect (lines 112-263) *)

(** Lines 166-193: the marker built for one location that has
    coordinates, when [L.marker] accepts them ([run_effect] below says when
    it does not). *)
Definition marker_of (l : ProcessedLocation) : list Marker :=
  match coordinates l with
  | None => []
  | Some c =>
      let '(icon, z) :=
        if match isOrigin (location l) with Some b => b | None => false end
        then (js "#22c55e", 1000%Z)
        else if match isDestination (location l) with Some b => b | None => false end
        then (js "#ef4444", 1000%Z)
        else (if is_dark then js "#3b82f6" else js "#2563eb", 0%Z) in
      let popupText :=
        match or_else (label (location l)) (address (location l)) with
        | Some s =>
            if truthy_str s then s
            else toFixed (Geo.lat c) 6 ++ js ", " ++ toFixed (Geo.lon c) 6
        | None => toFixed (Geo.lat c) 6 ++ js ", " ++ toFixed (Geo.lon c) 6
        end in
      [{| position := (Geo.lat c, Geo.lon c);
          iconColor := icon;
          zIndexOffset := z;
          popup := popupText |}]
  end.

(** Lines 206-209: one piece between commas as a [lat, lon] pair. An
    element that the destructuring does not find is [undefined]. *)
Definition coordPair (pair : jsstring) : option number * option number :=
  match map ToNumber (split_spaces (trim pair)) with
  | lon :: lat :: _ => (Some lat, Some lon)
  | [lon] => (None, Some lon)
  | [] => (None, None)
  end.

(** Lines 203-209: [None] is the [return] of line 204. *)
Definition coordPairs (wkt : jsstring) : option (list (option number * option number)) :=
  match match_polygon wkt with
  | None => None
  | Some group => Some (map coordPair (split_comma group))
  end.

Definition amber : jsstring := if is_dark then js "#f59e0b" else js "#d97706".

(** The body of the [try] (lines 202-221): [inl err] when [L.polygon]
    throws, [inr None] when the body returns early, [inr (Some p)] when
    the polygon is added. *)
Definition building_try (l : ProcessedLocation) (wkt : jsstring)
  : LeafletError + option Polygon :=
  match coordPairs wkt with
  | None => inr None
  | Some pairs =>
      if length pairs <? 3 then inr None
      else match L_polygon pairs with
           | Some err => inl err
           | None =>
               inr (Some {| ring := pairs;
                            polygonColor := amber;
                            polygonPopup := or_string (label (location l)) (js "Building") |})
           end
  end.

(** Lines 196-225, one location: the [catch] turns a throw into a
    warning and the loop goes on. *)
Definition building_of (l : ProcessedLocation) : list Polygon :=
  match geometry (location l) with
  | None => []
  | Some wkt =>
      if negb (truthy_str wkt)
         || negb (ostr_eqb (nodeType (location l)) (Some (js "building")))
      then []
      else match building_try l wkt with
           | inr (Some p) => [p]
           | inr None => []
           | inl _ => []
           end
  end.

(** Lines 228-245. *)
Definition route_polyline : option Polyline :=
  match route props with
  | None => None
  | Some r =>
      if 1 <? length (Route.coordinates r) then
        Some {| path := Route.coordinates r;
                lineColor := or_string (Route.color r)
                               (if is_dark then js "#ef4444" else js "#dc2626");
                linePopup :=
                  if truthy_onum (Route.distanceM r) then
                    match Route.distanceM r with
                    | Some d => Some (js "Route: " ++ toFixed (d / 1000)%float 2 ++ js " km")
                    | None => None
                    end
                  else None |}
      else None
  end.

(** The literal [0.1] of [pad(0.1)]: the double nearest to one tenth. *)
Definition pad_margin : number := (1 / 10)%float.

(** Line 244, then lines 248-258, in the order the calls are made. *)
Definition view_calls (ms : list Marker) : list ViewCall :=
  match route_polyline with
  | Some pl => [fitBounds (PolylineBounds (path pl)) pad_margin]
  | None => []
  end
  ++
  match validCoordinates with
  | first :: _ =>
      if centerOnFirst_ then [setView (Geo.lat first, Geo.lon first) zoom_]
      else if 1 <? length validCoordinates then [fitBounds (MarkerBounds ms) pad_margin]
      else if length validCoordinates =? 1 then [setView (Geo.lat first, Geo.lon first) zoom_]
      else []
  | [] => []
  end.

(** The calls of the effect's body on the element [id], all of them
    accepted by Leaflet; [None] is the early [return] of line 113. Which
    element there is, and what Leaflet refuses, is [run_effect] below. *)
Definition effect (id : jsstring) : option MapWidget :=
  match validCoordinates with
  | [] => None
  | _ :: _ =>
      let ms := flat_map marker_of processedLocations in
      Some {| container := id;
              tileSource := if is_dark then js "alidade_smooth_dark" else js "alidade_smooth";
              markers := ms;
              polygons := flat_map building_of processedLocations;
              polyline := route_polyline;
              viewCalls := view_calls ms |}
  end.

(** The view the map ends with: the last call wins. *)
Definition final_view (w : MapWidget) : option ViewCall :=
  last (map Some (viewCalls w)) None.

(** *** The render (lines 41-110 and 265-321) *)
Definition MapFromAddress : result Rendered :=
  match mapId with
  | Throw e => Throw e
  | Ok id =>
      Ok (if Query.isLoading geocodeQuery then LoadingMapData
          else if Query.isError geocodeQuery then UnableToLoadMap
          else if length validCoordinates =? 0 then NoLocationToDisplay
          else MapSurface id height_)
  end.

End MapFromAddress.

(* ------------------------------------------------------------------ *)
(** ** Panel Controller: the route it hands on and what it renders
       (map-panel.tsx, lines 53-79) *)

Module RouteQuery.
(** The body of a successful answer of [/api/routing/shortest-path], and
    what [useQuery] hands back for the route query: [data] is [None] while
    it is [undefined], and also when [queryFn] returned [null]. *)
Record Response := {
  success : bool;
  route : list (number * number);
  distance_m : option number
}.

Record Result := {
  data : option Response;
  isLoading : bool;
  isError : bool
}.
End RouteQuery.

(** Lines 53-60. *)
Definition MapPanel_route (routeQuery : RouteQuery.Result) : option Route.RouteData :=
  match RouteQuery.data routeQuery with
  | Some d =>
      if RouteQuery.success d then
        Some {| Route.coordinates := RouteQuery.route d;
                Route.distanceM := RouteQuery.distance_m d;
                Route.color := Some (js "#3b82f6") |}
      else None
  | None => None
  end.

(** Lines 62-79: the props of the [MapFromAddress] element and the two
    overlays. *)
Record MapPanelView := {
  mapProps : MapFromAddressProps;
  calculatingRoute : bool;
  noRouteFound : bool
}.

Definition MapPanel (st : PanelState) (routeQuery : RouteQuery.Result) : MapPanelView :=
  {| mapProps :=
       {| locations := locationNodes (nodes st) (selectedNodes st);
          height := None;
          zoom := None;
          centerOnFirst := None;
          route := MapPanel_route routeQuery |};
     calculatingRoute := RouteQuery.isLoading routeQuery;
     noRouteFound := RouteQuery.isError routeQuery |}.

(* ------------------------------------------------------------------ *)
(** ** Map Renderer: [queryFn] of the geocoding query (map.tsx, lines 49-68) *)

Module Nominatim.
(** One entry of the search answer: [lat] and [lon] are strings. *)
Record Hit := { lat : jsstring; lon : jsstring }.
End Nominatim.

Section GeocodeQueryFn.

(** What the loop calls and this development does not define:
    - [encodeURIComponent s], [None] when it throws (a lone surrogate);
    - [fetch_json url]: the parsed body of the answer, [None] when the
      request or the parsing fails, [Some None] for a body that is [null],
      [Some (Some hits)] for an array;
    - [parseFloat]. *)
Variable encodeURIComponent : jsstring -> option jsstring.
Variable fetch_json : jsstring -> option (option (list Nominatim.Hit)).
Variable parseFloat : jsstring -> number.

Definition search_url (q : jsstring) : jsstring :=
  js "https://nominatim.openstreetmap.org/search?format=json&q=" ++ q.

(** Lines 58-65: what is pushed for one answer. *)
Definition geocoded_of (json : option (list Nominatim.Hit)) : option Geo.LatLon :=
  match json with
  | None => None
  | Some [] => None
  | Some (first :: _) =>
      Some {| Geo.lat := parseFloat (Nominatim.lat first);
              Geo.lon := parseFloat (Nominatim.lon first) |}
  end.

(** Lines 54-65 for one address: [None] when a call throws or rejects. *)
Definition geocode_one (a : jsstring) : option (option Geo.LatLon) :=
  match encodeURIComponent a with
  | None => None
  | Some q =>
      match fetch_json (search_url q) with
      | None => None
      | Some json => Some (geocoded_of json)
      end
  end.

(** The loop of lines 51-66 over the locations still to visit, [results]
    being what was pushed so far. [None]: the promise is rejected. *)
Fixpoint geocode_loop (todo : list LocationPoint) (results : list (option Geo.LatLon))
  : option (list (option Geo.LatLon)) :=
  match todo with
  | [] => Some results
  | location :: rest =>
      if negb (truthy_ostr (address location)) then geocode_loop rest results
      else match address location with
           | Some a =>
               match geocode_one a with
               | None => None
               | Some r => geocode_loop rest (results ++ [r])
               end
           | None => geocode_loop rest results
           end
  end.

Definition geocodeQuery_queryFn (props : MapFromAddressProps)
  : option (list (option Geo.LatLon)) :=
  geocode_loop (locationsToGeocode props) [].

End GeocodeQueryFn.

(* ------------------------------------------------------------------ *)
(** ** Map Renderer: one mount, with the calls Leaflet refuses *)

(** What leaves the effect uncaught:
    - [L.map(id)] throws "Map container not found." when no element with
      this identifier is in the document, that is when the render returned
      a placeholder (the identifier is taken to be used by this component
      only);
    - [L.marker] and [L.polyline] build their positions with Leaflet's
      [LatLng], which throws "Invalid LatLng object" on a NaN.
    The other calls (tile layer, popups, [fitBounds], [setView] on
    positions already accepted) are taken not to throw; [L.polygon] is
    inside the [try] of line 199. What Leaflet does in a view call with an
    infinite coordinate, which [LatLng] accepts, is not described: the
    properties that state that the effect runs to its end ask for finite
    coordinates. *)
Inductive EffectError := MapContainerNotFound | InvalidLatLngObject.

(** How the effect ends: the early return of line 113, an uncaught error
    with the widget as the calls before it left it ([None] when there is no
    widget yet), or the end of the body. *)
Inductive EffectOutcome :=
| EffectSkipped
| EffectThrows (e : EffectError) (built : option MapWidget)
| EffectDone (w : MapWidget).

(** One mount: a render that throws commits nothing and no effect runs. *)
Inductive MountOutcome :=
| RenderThrows (e : exn)
| Committed (element : Rendered) (after : EffectOutcome).

Definition valid_LatLng (c : number * number) : bool :=
  negb (PrimFloat.is_nan (fst c) || PrimFloat.is_nan (snd c)).


Definition position_of (c : Geo.LatLon) : number * number := (Geo.lat c, Geo.lon c).

Section Mount.

Variable NumberToString : number -> jsstring.
Variable ToNumber : jsstring -> number.
Variable toFixed : number -> nat -> jsstring.
Variable L_polygon : list (option number * option number) -> option LeafletError.
Variable props : MapFromAddressProps.
Variable theme : jsstring.
Variable geocodeQuery : Query.Result.

(** The loop of lines 166-193: the markers added, and whether [L.marker]
    threw, which ends the loop and the effect. *)
Fixpoint markers_until_throw (ls : list ProcessedLocation) : list Marker * bool :=
  match ls with
  | [] => ([], false)
  | l :: rest =>
      match coordinates l with
      | None => markers_until_throw rest
      | Some c =>
          if valid_LatLng (position_of c) then
            let '(ms, threw) := markers_until_throw rest in
            (marker_of toFixed theme l ++ ms, threw)
          else ([], true)
      end
  end.

(** The effect (lines 112-263) after a render that returned [element]. *)
Definition run_effect (element : Rendered) : EffectOutcome :=
  match validCoordinates props geocodeQuery with
  | [] => EffectSkipped
  | _ :: _ =>
      match element with
      | MapSurface id _ =>
          let source := if is_dark theme then js "alidade_smooth_dark"
                        else js "alidade_smooth" in
          let '(ms, threw) := markers_until_throw (processedLocations props geocodeQuery) in
          if threw then
            EffectThrows InvalidLatLngObject
              (Some {| container := id; tileSource := source; markers := ms;
                       polygons := []; polyline := None; viewCalls := [] |})
          else
            let polys := flat_map (building_of ToNumber L_polygon theme)
                                  (processedLocations props geocodeQuery) in
            let line := route_polyline toFixed props theme in
            if match line with
               | Some pl => forallb valid_LatLng (path pl)
               | None => true
               end
            then
              EffectDone {| container := id; tileSource := source; markers := ms;
                            polygons := polys; polyline := line;
                            viewCalls := view_calls toFixed props theme geocodeQuery ms |}
            else
              EffectThrows InvalidLatLngObject
                (Some {| container := id; tileSource := source; markers := ms;
                         polygons := polys; polyline := None; viewCalls := [] |})
      | _ => EffectThrows MapContainerNotFound None
      end
  end.

Definition MapFromAddress_mount : MountOutcome :=
  match MapFromAddress NumberToString props geocodeQuery with
  | Throw e => RenderThrows e
  | Ok element => Committed element (run_effect element)
  end.

End Mount.

(** The widget a mount leaves, if any. *)
Definition widget_of (o : EffectOutcome) : option MapWidget :=
  match o with
  | EffectSkipped => None
  | EffectThrows _ built => built
  | EffectDone w => Some w
  end.

(* ------------------------------------------------------------------ *)
(** ** Definitions used by the statements *)

(** *** Graph nodes and panel states of the examples *)

(** A node of another type whose latitude is the number [0]: it carries
    both coordinates. *)
Definition equator_node : Graph.GraphNode :=
  {| Graph.nodeId := js "n1";
     Graph.nodeType := js "person";
     Graph.nodeProperties :=
       {| Graph.latitude := Some 0%float;
          Graph.longitude := Some 10%float;
          Graph.address := None;
          Graph.name := Some (js "Quito");
          Graph.label := None;
          Graph.geometry := None |} |}.

(** A place, a building and a person. *)
Definition node_of (id type : string) (la lo : option number) (nm : string)
  : Graph.GraphNode :=
  {| Graph.nodeId := js id;
     Graph.nodeType := js type;
     Graph.nodeProperties :=
       {| Graph.latitude := la; Graph.longitude := lo;
          Graph.address := None; Graph.name := Some (js nm);
          Graph.label := None; Graph.geometry := None |} |}.

Definition paris : Graph.GraphNode :=
  node_of "n1" "place" (Some 48.5%float) (Some 2.25%float) "Paris".

Definition depot : Graph.GraphNode :=
  node_of "n2" "building" (Some 45.75%float) (Some 4.75%float) "Depot".

Definition alice : Graph.GraphNode :=
  node_of "n3" "person" None None "Alice".

Definition two_selected (sk : option jsstring) : PanelState :=
  {| nodes := [paris; depot; alice]; selectedNodes := [paris; depot]; sketchId := sk |}.

Definition one_selected : PanelState :=
  {| nodes := [paris; depot; alice]; selectedNodes := [paris];
     sketchId := Some (js "sketch-1") |}.

(** *** Renderer inputs of the examples *)

Definition point (la lo : option number) (addr lbl : option jsstring) : LocationPoint :=
  {| lat := la; lon := lo; address := addr; label := lbl;
     isOrigin := None; isDestination := None; geometry := None; nodeType := None |}.

Definition props_of (l : list LocationPoint) (r : option Route.RouteData)
  : MapFromAddressProps :=
  {| locations := l; height := None; zoom := None; centerOnFirst := None; route := r |}.

Definition lyon_explicit : LocationPoint :=
  point (Some 45.75%float) (Some 4.75%float) (Some (js "Lyon")) None.

Definition nice_by_address : LocationPoint :=
  point None None (Some (js "Nice")) None.

(** States of the geocoding query: fetching, failed, disabled or not yet
    started, and settled with the list [l]. *)
Definition query_loading : Query.Result :=
  {| Query.data := None; Query.isLoading := true; Query.isError := false |}.

Definition query_failed : Query.Result :=
  {| Query.data := None; Query.isLoading := false; Query.isError := true |}.

Definition query_idle : Query.Result :=
  {| Query.data := None; Query.isLoading := false; Query.isError := false |}.

Definition query_found (l : list (option Geo.LatLon)) : Query.Result :=
  {| Query.data := Some l; Query.isLoading := false; Query.isError := false |}.

Definition short_route : Route.RouteData :=
  {| Route.coordinates := [(0%float, 0%float); (1%float, 1%float)];
     Route.distanceM := Some 1500%float;
     Route.color := None |}.

(** The two code units of a place name written in kanji (U+6771, U+4EAC). *)
Definition tokyo : jsstring := [26481; 20140]%N.

Definition tokyo_point : LocationPoint :=
  point (Some 35.75%float) (Some 139.75%float) (Some tokyo) (Some tokyo).

Definition greater_than_point : LocationPoint := point None None None (Some (js ">")).

Definition question_mark_point : LocationPoint := point None None None (Some (js "?")).

(** *** Predicates of the statements *)

(** A code unit above 0xFF that is not a surrogate: [JSON.stringify] writes
    it as it is. *)
Definition is_wide (c : code_unit) : bool :=
  negb (is_latin1 c) && negb (is_leading_surrogate c) && negb (is_trailing_surrogate c).

(** The call of line 244. *)
Definition is_route_fit (v : ViewCall) : bool :=
  match v with
  | fitBounds (PolylineBounds _) _ => true
  | _ => false
  end.

(** *** [Number] on decimal digits *)

(** What [Number(s)] is on a non-empty string of decimal digits whose value
    is at most 2^53 (every such integer is a double). This is the only
    part of the conversion that the statements below rely on. *)
Definition digit_value (c : code_unit) : option N :=
  if ((48 <=? c) && (c <=? 57))%N then Some (c - 48)%N else None.

Fixpoint digits_value (acc : N) (s : jsstring) : option N :=
  match s with
  | [] => Some acc
  | c :: r =>
      match digit_value c with
      | Some d => digits_value (10 * acc + d)%N r
      | None => None
      end
  end.

Definition decimal_value (s : jsstring) : option number :=
  match s with
  | [] => None
  | _ :: _ =>
      match digits_value 0%N s with
      | Some n =>
          if (n <=? 2 ^ 53)%N then Some (PrimFloat.of_uint63 (Uint63.of_Z (Z.of_N n)))
          else None
      | None => None
      end
  end.


(** A conversion that reads decimal digits and answers NaN elsewhere. *)
Definition ToNumber_digits (s : jsstring) : number :=
  match decimal_value s with Some v => v | None => nan end.

(** *** Reading back what [btoa] writes *)

(** The numbers below [n], to check a property of bytes on all of them. *)
Definition all_below (n : nat) : list N := map N.of_nat (seq 0 n).

(** The four indices that [b64_encode] computes from three bytes. *)
Definition idx1 (a : N) : N := N.shiftr a 2.

Definition idx2 (a b : N) : N := N.lor (N.shiftl (N.land a 3) 4) (N.shiftr b 4).

Definition idx3 (b c : N) : N := N.lor (N.shiftl (N.land b 15) 2) (N.shiftr c 6).

Definition idx4 (c : N) : N := N.land c 63.

(** The position of a character in the alphabet, and the decoding of a
    text without padding. *)
Definition b64_index (c : code_unit) : N :=
  match findIndex (N.eqb c) b64_alphabet with
  | Some i => N.of_nat i
  | None => 0%N
  end.

Definition byte1 (w x : code_unit) : N :=
  N.lor (N.shiftl (b64_index w) 2) (N.shiftr (b64_index x) 4).

Definition byte2 (x y : code_unit) : N :=
  N.lor (N.shiftl (N.land (b64_index x) 15) 4) (N.shiftr (b64_index y) 2).

Definition byte3 (y z : code_unit) : N :=
  N.lor (N.shiftl (N.land (b64_index y) 3) 6) (b64_index z).

Fixpoint b64_decode (e : jsstring) : list N :=
  match e with
  | w :: x :: y :: z :: rest => byte1 w x :: byte2 x y :: byte3 y z :: b64_decode rest
  | [w; x; y] => [byte1 w x; byte2 x y]
  | [w; x] => [byte1 w x]
  | _ => []
  end.

(** The encoded text holds neither ['+'] nor ['/']. *)
Definition no_plus_slash (e : jsstring) : bool :=
  forallb (fun c => negb (N.eqb c 43 || N.eqb c 47)) e.

(** A building with a footprint, and the polygon drawn for it in the dark
    theme. *)
Definition depot_point : LocationPoint :=
  {| lat := Some 45.75%float; lon := Some 4.75%float;
     address := Some (js "Depot"); label := Some [];
     isOrigin := Some false; isDestination := Some false;
     geometry := Some (js "POLYGON((10 20, 11 21, 12 19))");
     nodeType := Some (js "building") |}.

Definition depot_polygon : Polygon :=
  {| ring := [(Some 20%float, Some 10%float); (Some 21%float, Some 11%float);
              (Some 19%float, Some 12%float)];
     polygonColor := js "#f59e0b";
     polygonPopup := js "Building" |}.

(** *** Numbers of the examples in decimal *)

(** [Number::toString] on the integers from 0 to 999, found by their value;
    the examples that use it print no other number. *)
Definition NumberToString_upto_999 (x : number) : jsstring :=
  match find (fun n => PrimFloat.eqb (PrimFloat.of_uint63 (Uint63.of_Z (Z.of_nat n))) x)
             (seq 0 1000) with
  | Some n => js (NilZero.string_of_uint (Nat.to_uint n))
  | None => js "NaN"
  end.

(** A location without coordinates, and one whose name is written in
    kanji. *)
Definition somewhere : Graph.GraphNode := node_of "n4" "location" None None "Somewhere".

Definition tokyo_location : Graph.GraphNode :=
  {| Graph.nodeId := js "n9"; Graph.nodeType := js "location";
     Graph.nodeProperties :=
       {| Graph.latitude := None; Graph.longitude := None;
          Graph.address := Some tokyo; Graph.name := None;
          Graph.label := None; Graph.geometry := None |} |}.

Definition no_route : RouteQuery.Result :=
  {| RouteQuery.data := None; RouteQuery.isLoading := false; RouteQuery.isError := false |}.

Definition route_found : RouteQuery.Result :=
  {| RouteQuery.data :=
       Some {| RouteQuery.success := true;
               RouteQuery.route := [(0%float, 0%float); (1%float, 1%float)];
               RouteQuery.distance_m := Some 2000%float |};
     RouteQuery.isLoading := false; RouteQuery.isError := false |}.

(** [toFixed] on the whole numbers up to 999: the number, then the point
    and the zeros asked for. *)
Definition toFixed_whole (x : number) (digits : nat) : jsstring :=
  NumberToString_upto_999 x
  ++ match digits with
     | O => []
     | S _ => js "." ++ repeat 48%N digits
     end.

(** A place with whole coordinates, and a point whose latitude is NaN. *)
Definition harbour : Graph.GraphNode :=
  node_of "n5" "place" (Some 1%float) (Some 2%float) "Harbour".

Definition harbour_point : LocationPoint :=
  point (Some 1%float) (Some 2%float) (Some (js "Harbour")) None.

Definition nan_point : LocationPoint :=
  point (Some nan) (Some 2%float) (Some (js "Nowhere")) None.

Definition quay_point : LocationPoint :=
  point (Some 3%float) (Some 4%float) (Some (js "Quay")) None.

(** Panels: a location without coordinates before a place with some, and a
    location whose address is written in kanji. *)
Definition harbour_panel : PanelState :=
  {| nodes := [somewhere; harbour; alice]; selectedNodes := [];
     sketchId := Some (js "sketch-1") |}.

Definition tokyo_panel : PanelState :=
  {| nodes := [tokyo_location]; selectedNodes := []; sketchId := Some (js "sketch-1") |}.

(** *** The geocoding batch *)

(** The result pushed for a location is the lookup of its address. *)
Definition looked_up (encodeURIComponent : jsstring -> option jsstring)
    (fetch_json : jsstring -> option (option (list Nominatim.Hit)))
    (parseFloat : jsstring -> number)
    (location : LocationPoint) (r : option Geo.LatLon) : Prop :=
  exists a, address location = Some a
            /\ geocode_one encodeURIComponent fetch_json parseFloat a = Some r.

Definition nice_hit : Nominatim.Hit :=
  {| Nominatim.lat := js "43"; Nominatim.lon := js "7" |}.

(** *** Writing a polygon as the parser expects it *)

(** A code unit that can stand in a coordinate: no white space, no comma,
    no closing parenthesis. *)
Definition is_token_unit (c : code_unit) : bool :=
  negb (is_space c) && negb (N.eqb c 44) && negb (N.eqb c 41).

Definition is_token (t : jsstring) : bool :=
  truthy_str t && forallb is_token_unit t.

(** ["lon lat"] for one pair of texts, and the polygon text
    ["POLYGON((lon lat, lon lat, ...))"]. *)
Definition pair_text (p : jsstring * jsstring) : jsstring :=
  fst p ++ js " " ++ snd p.

Definition wkt_polygon (pairs : list (jsstring * jsstring)) : jsstring :=
  js "POLYGON((" ++ join (js ", ") (map pair_text pairs) ++ js "))".

(** *** Coordinates of a point that has both *)

Definition explicit_coordinates (p : LocationPoint) : option Geo.LatLon :=
  match lat p, lon p with
  | Some la, Some lo => Some {| Geo.lat := la; Geo.lon := lo |}
  | _, _ => None
  end.

(** The coordinates the panel gives a node (lines 20-21). *)
Definition node_coordinates (node : Graph.GraphNode) : Geo.LatLon :=
  {| Geo.lat := or_number (Graph.latitude (Graph.nodeProperties node)) 0%float;
     Geo.lon := or_number (Graph.longitude (Graph.nodeProperties node)) 0%float |}.

(** Every string of a point is Latin-1. *)
Definition latin1_ostr (s : option jsstring) : bool :=
  match s with Some x => forallb is_latin1 x | None => true end.

Definition latin1_point (p : LocationPoint) : bool :=
  latin1_ostr (address p) && latin1_ostr (label p)
  && latin1_ostr (geometry p) && latin1_ostr (nodeType p).

(* ================================================================== *)
(** * Properties *)

Unset Implicit Arguments.

(** ** Strict equality decides equality of the modelled values *)

Lemma str_eqb_eq (a b : jsstring) : str_eqb a b = true <-> a = b.
Proof.
  revert b; induction a as [|x a IH]; intros [|y b]; simpl; split;
    try congruence; try reflexivity.
  - intros H. apply andb_true_iff in H as [Hx Hr].
    apply N.eqb_eq in Hx. apply IH in Hr. congruence.
  - intros H. injection H as -> ->. rewrite N.eqb_refl. simpl. now apply IH.
Qed.

Lemma str_eqb_refl (a : jsstring) : str_eqb a a = true.
Proof. now apply str_eqb_eq. Qed.

Lemma ostr_eqb_eq (a b : option jsstring) : ostr_eqb a b = true <-> a = b.
Proof.
  destruct a as [a|], b as [b|]; simpl; split; try congruence; try reflexivity.
  - intros H. apply str_eqb_eq in H. congruence.
  - intros H. injection H as ->. apply str_eqb_refl.
Qed.

Lemma list_eqb_eq (a b : list jsstring) : list_eqb a b = true <-> a = b.
Proof.
  revert b; induction a as [|x a IH]; intros [|y b]; simpl; split;
    try congruence; try reflexivity.
  - intros H. apply andb_true_iff in H as [Hx Hr].
    apply str_eqb_eq in Hx. apply IH in Hr. congruence.
  - intros H. injection H as -> ->. rewrite str_eqb_refl. simpl. now apply IH.
Qed.

Lemma key_eqb_eq (a b : QueryKey) : key_eqb a b = true <-> a = b.
Proof.
  destruct a as [a1 a2], b as [b1 b2]. unfold key_eqb. simpl.
  rewrite andb_true_iff, ostr_eqb_eq, list_eqb_eq. split.
  - intros [-> ->]. reflexivity.
  - intros H. injection H as -> ->. split; reflexivity.
Qed.

Lemma key_eqb_refl (k : QueryKey) : key_eqb k k = true.
Proof. now apply key_eqb_eq. Qed.

Lemma key_eqb_sym (a b : QueryKey) : key_eqb a b = key_eqb b a.
Proof.
  destruct (key_eqb a b) eqn:E1, (key_eqb b a) eqn:E2; try reflexivity.
  - apply key_eqb_eq in E1. subst. rewrite key_eqb_refl in E2. discriminate.
  - apply key_eqb_eq in E2. subst. rewrite key_eqb_refl in E1. discriminate.
Qed.

(** ** Panel Controller *)

(** The derived list is the image of the nodes that pass the filter of
    line 18, in the order of the node list. *)
Lemma locationNodes_filter_map nodes sel :
  locationNodes nodes sel = map (toLocationPoint sel) (filter isLocationNode nodes).
Proof. reflexivity. Qed.

Lemma locationNodes_app nodes1 nodes2 sel :
  locationNodes (nodes1 ++ nodes2) sel
  = locationNodes nodes1 sel ++ locationNodes nodes2 sel.
Proof. unfold locationNodes. now rewrite filter_app, map_app. Qed.

(** A node is kept exactly when its type is one of the three, or both of
    its coordinates are truthy (present, and neither zero nor NaN). *)
Lemma isLocationNode_true node :
  isLocationNode node = true <->
  Graph.nodeType node = js "location" \/ Graph.nodeType node = js "place"
  \/ Graph.nodeType node = js "building"
  \/ (truthy_onum (Graph.latitude (Graph.nodeProperties node)) = true
      /\ truthy_onum (Graph.longitude (Graph.nodeProperties node)) = true).
Proof.
  unfold isLocationNode.
  rewrite !orb_true_iff, andb_true_iff, !str_eqb_eq. tauto.
Qed.

Lemma In_locationNodes nodes sel p :
  In p (locationNodes nodes sel) <->
  exists node, In node nodes /\ isLocationNode node = true /\ p = toLocationPoint sel node.
Proof.
  unfold locationNodes. rewrite in_map_iff. split.
  - intros (n & <- & Hn). apply filter_In in Hn as [Hin Hf]. now exists n.
  - intros (n & Hin & Hf & ->). exists n. split; [reflexivity|]. now apply filter_In.
Qed.

(** C1 (the code at the failing input): a node that carries latitude 0 and
    longitude 10 and whose type is none of the three is absent from the
    derived point list, because line 18 tests the coordinates for
    truthiness and [0] is falsy. *)
Theorem C1_zero_latitude_node_is_dropped :
  Graph.latitude (Graph.nodeProperties equator_node) = Some 0%float
  /\ Graph.longitude (Graph.nodeProperties equator_node) = Some 10%float
  /\ locationNodes [equator_node] [] = [].
Proof. repeat split; reflexivity. Qed.

(** *** Origin and destination flags *)

Lemma isSelectedAt_not_two sel i node :
  length sel <> 2 -> isSelectedAt sel i node = false.
Proof.
  intros H. unfold isSelectedAt.
  destruct (Nat.eqb_spec (length sel) 2); [contradiction | reflexivity].
Qed.

Lemma isSelectedAt_first a b node :
  isSelectedAt [a; b] 0 node = str_eqb (Graph.nodeId node) (Graph.nodeId a).
Proof. reflexivity. Qed.

Lemma isSelectedAt_second a b node :
  isSelectedAt [a; b] 1 node = str_eqb (Graph.nodeId node) (Graph.nodeId b).
Proof. reflexivity. Qed.

Lemma length_two {A : Type} (l : list A) :
  length l = 2 -> exists a b, l = [a; b].
Proof.
  destruct l as [|a [|b [|c l]]]; simpl; try discriminate.
  intros _. now exists a, b.
Qed.

(** *** The route query *)

Lemma routeQuery_enabled_true sel sk :
  routeQuery_enabled sel sk = true <-> truthy_ostr sk = true /\ length sel = 2.
Proof. unfold routeQuery_enabled. now rewrite andb_true_iff, Nat.eqb_eq. Qed.

Lemma routeQuery_queryFn_two a b sk :
  routeQuery_queryFn [a; b] sk
  = Some {| sketch_id := sk;
            origin_node_id := Graph.nodeId a;
            destination_node_id := Graph.nodeId b;
            algorithm := js "dijkstra" |}.
Proof. reflexivity. Qed.

Lemma routeQuery_enabled_queryFn sel sk :
  routeQuery_enabled sel sk = true -> exists r, routeQuery_queryFn sel sk = Some r.
Proof.
  intros H. apply routeQuery_enabled_true in H as [_ H].
  apply length_two in H as (a & b & ->). eexists. reflexivity.
Qed.

(** C7: when the number of selected nodes is not two, the route query is
    disabled, a render sends no route request whatever the cache holds, and
    every derived point has its origin and destination flags false. *)
Theorem C7_no_route_no_flags_unless_two_selected (st : PanelState) (c : QueryCache) :
  length (selectedNodes st) <> 2 ->
  routeQuery_enabled (selectedNodes st) (sketchId st) = false
  /\ routeQuery_queryFn (selectedNodes st) (sketchId st) = None
  /\ MapPanel_render c st = (c, [])
  /\ forall p, In p (locationNodes (nodes st) (selectedNodes st)) ->
               isOrigin p = Some false /\ isDestination p = Some false.
Proof.
  intros H.
  assert (He : routeQuery_enabled (selectedNodes st) (sketchId st) = false).
  { unfold routeQuery_enabled.
    destruct (Nat.eqb_spec (length (selectedNodes st)) 2); [contradiction|].
    apply andb_false_r. }
  split; [exact He|]. split; [|split].
  - unfold routeQuery_queryFn.
    destruct (selectedNodes st) as [|a [|b [|x l]]]; try reflexivity.
    now contradiction H.
  - unfold MapPanel_render. now rewrite He.
  - intros p Hp. apply In_locationNodes in Hp as (node & _ & _ & ->).
    cbn [toLocationPoint isOrigin isDestination].
    now rewrite !isSelectedAt_not_two.
Qed.

Lemma C7_witness :
  MapPanel_render [] one_selected = ([], [])
  /\ map isOrigin (locationNodes (nodes one_selected) (selectedNodes one_selected))
     = [Some false; Some false].
Proof.
  destruct (C7_no_route_no_flags_unless_two_selected one_selected []) as (_ & _ & Hr & _).
  - cbn. discriminate.
  - split; [exact Hr | reflexivity].
Defined.

(** C6 (as stated, refuted): with exactly two nodes selected but no sketch
    identifier (the route has no [id] parameter), [enabled] is false and no
    route request is sent. *)
Lemma C6_no_request_without_sketch :
  length (selectedNodes (two_selected None)) = 2
  /\ routeQuery_enabled (selectedNodes (two_selected None))
                        (sketchId (two_selected None)) = false
  /\ snd (MapPanel_renders [] [two_selected None; two_selected None]) = [].
Proof. repeat split. Qed.

(** C6 (amended): with exactly the nodes [a] and [b] selected, in this
    order, a derived point is flagged origin exactly when its node has the
    identifier of [a], and destination exactly when it has that of [b]. The
    route query is then enabled exactly when the sketch identifier is
    non-empty; its key is (sketchId, [a.nodeId, b.nodeId]) and its query
    function asks for the shortest path of this sketch from [a] to [b] with
    algorithm 'dijkstra'. *)
Theorem C6_two_selected_flags_and_route_query
    (st : PanelState) (a b : Graph.GraphNode) :
  selectedNodes st = [a; b] ->
  (forall node, In node (nodes st) -> isLocationNode node = true ->
     In (toLocationPoint [a; b] node) (locationNodes (nodes st) (selectedNodes st))
     /\ (isOrigin (toLocationPoint [a; b] node) = Some true
         <-> Graph.nodeId node = Graph.nodeId a)
     /\ (isDestination (toLocationPoint [a; b] node) = Some true
         <-> Graph.nodeId node = Graph.nodeId b))
  /\ (routeQuery_enabled (selectedNodes st) (sketchId st) = true
      <-> truthy_ostr (sketchId st) = true)
  /\ routeQuery_queryKey (selectedNodes st) (sketchId st)
     = (sketchId st, [Graph.nodeId a; Graph.nodeId b])
  /\ routeQuery_queryFn (selectedNodes st) (sketchId st)
     = Some {| sketch_id := sketchId st;
               origin_node_id := Graph.nodeId a;
               destination_node_id := Graph.nodeId b;
               algorithm := js "dijkstra" |}.
Proof.
  intros Hsel. split; [|split; [|split]].
  - intros node Hin Hf. split; [|split].
    + apply In_locationNodes. exists node. rewrite Hsel. now repeat split.
    + cbn [toLocationPoint isOrigin]. rewrite isSelectedAt_first.
      rewrite <- str_eqb_eq. split; congruence.
    + cbn [toLocationPoint isDestination]. rewrite isSelectedAt_second.
      rewrite <- str_eqb_eq. split; congruence.
  - rewrite routeQuery_enabled_true, Hsel. cbn [length]. tauto.
  - unfold routeQuery_queryKey. now rewrite Hsel.
  - rewrite Hsel. apply routeQuery_queryFn_two.
Qed.

Lemma C6_witness :
  map isOrigin (locationNodes (nodes (two_selected (Some (js "sketch-1"))))
                              [paris; depot])
  = [Some true; Some false]
  /\ map isDestination (locationNodes (nodes (two_selected (Some (js "sketch-1"))))
                                      [paris; depot])
     = [Some false; Some true]
  /\ routeQuery_queryFn [paris; depot] (Some (js "sketch-1"))
     = Some {| sketch_id := Some (js "sketch-1");
               origin_node_id := js "n1";
               destination_node_id := js "n2";
               algorithm := js "dijkstra" |}.
Proof.
  split; [reflexivity|]. split; [reflexivity|].
  exact (proj2 (proj2 (proj2 (C6_two_selected_flags_and_route_query
                                (two_selected (Some (js "sketch-1"))) paris depot
                                eq_refl)))).
Defined.

(** ** Map Renderer: which points are geocoded *)

Lemma In_locationsToGeocode props p :
  In p (locationsToGeocode props) <->
  In p (locations props) /\ lat p = None /\ lon p = None
  /\ truthy_ostr (address p) = true.
Proof.
  unfold locationsToGeocode. rewrite filter_In, !andb_true_iff.
  destruct (lat p), (lon p); simpl; intuition congruence.
Qed.

Lemma geocodeQuery_enabled_true props :
  geocodeQuery_enabled props = true <-> locationsToGeocode props <> [].
Proof.
  unfold geocodeQuery_enabled. destruct (locationsToGeocode props); simpl.
  - split; [discriminate | congruence].
  - split; [discriminate | reflexivity].
Qed.

Lemma In_geocodeQuery_lookups props a :
  In a (geocodeQuery_lookups props) <->
  exists p, In p (locationsToGeocode props) /\ address p = Some a.
Proof.
  unfold geocodeQuery_lookups. rewrite in_flat_map. split.
  - intros (p & Hp & Ha). exists p. split; [assumption|].
    destruct (address p) as [s|]; [|destruct Ha].
    destruct (truthy_str s); [|destruct Ha].
    destruct Ha as [-> | []]. reflexivity.
  - intros (p & Hp & Ha). exists p. split; [assumption|].
    apply In_locationsToGeocode in Hp as (_ & _ & _ & Ht).
    rewrite Ha in Ht |- *. simpl in Ht. rewrite Ht. now left.
Qed.

Lemma processLocation_explicit props q p la lo :
  lat p = Some la -> lon p = Some lo ->
  processLocation props q p
  = {| location := p;
       coordinates := Some {| Geo.lat := la; Geo.lon := lo |};
       isLoading := false; isError := false |}.
Proof. intros H1 H2. unfold processLocation. now rewrite H1, H2. Qed.

(** C9: a point with explicit [lat] and [lon] is not in the geocoding lookup
    set, and its coordinates are taken as they are whatever the geocoding
    query holds; a point of the input with a (non-empty) address and neither
    [lat] nor [lon] is in the lookup set, its address is one of the
    addresses looked up, and the geocoding query is enabled. *)
Theorem C9_explicit_never_geocoded_address_only_always
    (props : MapFromAddressProps) (p : LocationPoint) :
  (forall la lo, lat p = Some la -> lon p = Some lo ->
     ~ In p (locationsToGeocode props)
     /\ forall q, coordinates (processLocation props q p)
                  = Some {| Geo.lat := la; Geo.lon := lo |})
  /\ (forall a, In p (locations props) ->
        lat p = None -> lon p = None -> address p = Some a -> a <> [] ->
        In p (locationsToGeocode props)
        /\ In a (geocodeQuery_lookups props)
        /\ geocodeQuery_enabled props = true).
Proof.
  split.
  - intros la lo Hla Hlo. split.
    + intros Hin. apply In_locationsToGeocode in Hin as (_ & H & _). congruence.
    + intros q. now rewrite (processLocation_explicit props q p la lo Hla Hlo).
  - intros a Hin Hla Hlo Ha Hne.
    assert (Hg : In p (locationsToGeocode props)).
    { apply In_locationsToGeocode. repeat split; try assumption.
      rewrite Ha. destruct a; [contradiction | reflexivity]. }
    split; [exact Hg|]. split.
    + apply In_geocodeQuery_lookups. now exists p.
    + apply geocodeQuery_enabled_true. intros E. rewrite E in Hg. destruct Hg.
Qed.

Lemma C9_witness :
  ~ In lyon_explicit (locationsToGeocode (props_of [lyon_explicit; nice_by_address] None))
  /\ In (js "Nice") (geocodeQuery_lookups (props_of [lyon_explicit; nice_by_address] None)).
Proof.
  split.
  - destruct (C9_explicit_never_geocoded_address_only_always
                (props_of [lyon_explicit; nice_by_address] None) lyon_explicit)
      as [H _].
    destruct (H 45.75%float 4.75%float eq_refl eq_refl) as [Hn _]. exact Hn.
  - destruct (C9_explicit_never_geocoded_address_only_always
                (props_of [lyon_explicit; nice_by_address] None) nice_by_address)
      as [_ H].
    destruct (H (js "Nice")) as (_ & Ha & _); try reflexivity.
    + right. left. reflexivity.
    + discriminate.
    + exact Ha.
Defined.

(** ** Panel-derived input of the renderer *)

Lemma toLocationPoint_lat sel node :
  lat (toLocationPoint sel node)
  = Some (or_number (Graph.latitude (Graph.nodeProperties node)) 0%float).
Proof. reflexivity. Qed.

Lemma toLocationPoint_lon sel node :
  lon (toLocationPoint sel node)
  = Some (or_number (Graph.longitude (Graph.nodeProperties node)) 0%float).
Proof. reflexivity. Qed.

Lemma locationsToGeocode_panel nodes sel props :
  locations props = locationNodes nodes sel -> locationsToGeocode props = [].
Proof.
  intros Hl. destruct (locationsToGeocode props) as [|p l] eqn:E; [reflexivity|].
  assert (Hp : In p (locationsToGeocode props)) by (rewrite E; now left).
  apply In_locationsToGeocode in Hp as (Hin & Hla & _).
  rewrite Hl in Hin. apply In_locationNodes in Hin as (node & _ & _ & ->).
  rewrite toLocationPoint_lat in Hla. discriminate.
Qed.

Lemma In_validCoordinates props q c :
  In c (validCoordinates props q) <->
  exists p, In p (locations props) /\ coordinates (processLocation props q p) = Some c.
Proof.
  unfold validCoordinates, processedLocations. rewrite in_flat_map. split.
  - intros (l & Hl & Hc). apply in_map_iff in Hl as (p & <- & Hp).
    exists p. split; [assumption|].
    destruct (coordinates (processLocation props q p)); [|destruct Hc].
    destruct Hc as [-> | []]. reflexivity.
  - intros (p & Hp & Hc). exists (processLocation props q p). split.
    + apply in_map_iff. now exists p.
    + rewrite Hc. now left.
Qed.

(** ** Map Renderer: what a render returns *)

Section Render.

Variable NumberToString : number -> jsstring.

Lemma MapFromAddress_cases props q id :
  mapId NumberToString props = Ok id ->
  MapFromAddress NumberToString props q
  = Ok (if Query.isLoading q then LoadingMapData
        else if Query.isError q then UnableToLoadMap
        else if length (validCoordinates props q) =? 0 then NoLocationToDisplay
        else MapSurface id (height_ props)).
Proof. intros H. unfold MapFromAddress. now rewrite H. Qed.

Lemma MapFromAddress_throws props q e :
  mapId NumberToString props = Throw e ->
  MapFromAddress NumberToString props q = Throw e.
Proof. intros H. unfold MapFromAddress. now rewrite H. Qed.

End Render.

(** C3 (as stated, refuted): one point that has only an address. With the
    geocoding query in progress, or failed, there is no resolved coordinate,
    and the render returns the loading placeholder, respectively the error
    placeholder, not "No location to display". *)
Lemma C3_loading_and_error_come_first :
  validCoordinates (props_of [nice_by_address] None) query_loading = []
  /\ validCoordinates (props_of [nice_by_address] None) query_failed = []
  /\ (forall NumberToString,
        MapFromAddress NumberToString (props_of [nice_by_address] None) query_loading
        = Ok LoadingMapData)
  /\ (forall NumberToString,
        MapFromAddress NumberToString (props_of [nice_by_address] None) query_failed
        = Ok UnableToLoadMap).
Proof. repeat split. Qed.

(** ** The identifier of line 110 can throw *)

Lemma btoa_throws s c :
  In c s -> is_latin1 c = false -> btoa s = Throw InvalidCharacterError.
Proof.
  intros Hin Hc. unfold btoa.
  destruct (forallb is_latin1 s) eqn:E; [|reflexivity].
  rewrite forallb_forall in E. specialize (E c Hin). congruence.
Qed.

Lemma btoa_Ok s b : btoa s = Ok b -> forallb is_latin1 s = true /\ b = b64_encode s.
Proof.
  unfold btoa. destruct (forallb is_latin1 s); [|discriminate].
  intros H. injection H as <-. now split.
Qed.

Lemma quote_unit_wide c : is_wide c = true -> quote_unit c = [c].
Proof.
  unfold is_wide, is_latin1, quote_unit. rewrite !andb_true_iff, !negb_true_iff.
  intros [[H1 H2] H3]. rewrite H2, H3. apply N.leb_gt in H1.
  repeat match goal with
         | |- context [N.eqb c ?k] => destruct (N.eqb_spec c k); [lia|]
         end.
  destruct (N.ltb_spec c 32); [lia | reflexivity].
Qed.

Lemma quote_units_wide c : forall n s,
  length s <= n -> is_wide c = true -> In c s -> In c (quote_units s).
Proof.
  induction n as [|n IH]; intros s Hlen Hw Hin.
  - destruct s; [destruct Hin | simpl in Hlen; lia].
  - destruct s as [|x r]; [destruct Hin|]. simpl in Hlen.
    cbn [quote_units].
    destruct (is_leading_surrogate x) eqn:Ex.
    + assert (Hx : x <> c).
      { intros ->. unfold is_wide in Hw. rewrite Ex in Hw.
        rewrite andb_false_r in Hw. discriminate. }
      destruct Hin as [Hin | Hin]; [contradiction|].
      destruct r as [|d r']; [destruct Hin|].
      destruct (is_trailing_surrogate d) eqn:Ed.
      * assert (Hd : d <> c).
        { intros ->. unfold is_wide in Hw. rewrite Ed in Hw.
          rewrite andb_false_r in Hw. discriminate. }
        destruct Hin as [Hin | Hin]; [contradiction|].
        right. right. apply IH; [simpl in Hlen; lia | assumption | assumption].
      * apply in_or_app. right. apply IH; [lia | assumption | assumption].
    + apply in_or_app. destruct Hin as [-> | Hin].
      * left. rewrite (quote_unit_wide c Hw). now left.
      * right. apply IH; [lia | assumption | assumption].
Qed.

Lemma QuoteJSONString_wide c s :
  is_wide c = true -> In c s -> In c (QuoteJSONString s).
Proof.
  intros Hw Hin. unfold QuoteJSONString. rewrite !in_app_iff. right. left.
  now apply (quote_units_wide c (length s)).
Qed.

Lemma join_In sep parts part c :
  In part parts -> In c part -> In c (join sep parts).
Proof.
  induction parts as [|p rest IH]; intros Hp Hc; [destruct Hp|].
  destruct rest as [|p' rest'].
  - destruct Hp as [-> | []]. exact Hc.
  - change (join sep (p :: p' :: rest')) with (p ++ sep ++ join sep (p' :: rest')).
    destruct Hp as [-> | Hp].
    + apply in_or_app. now left.
    + apply in_or_app. right. apply in_or_app. right. now apply IH.
Qed.

Section Identifier.

Variable NumberToString : number -> jsstring.

Lemma JSON_stringify_In l p c :
  In p l -> In c (stringify_point NumberToString p) ->
  In c (JSON_stringify NumberToString l).
Proof.
  intros Hp Hc. unfold JSON_stringify. rewrite !in_app_iff. right. left.
  apply (join_In _ _ (stringify_point NumberToString p)); [|exact Hc].
  now apply in_map.
Qed.

Lemma stringify_point_label p s c :
  label p = Some s -> is_wide c = true -> In c s ->
  In c (stringify_point NumberToString p).
Proof.
  intros Hl Hw Hc. unfold stringify_point. rewrite in_app_iff. right.
  rewrite in_app_iff. left.
  apply (join_In _ _ (QuoteJSONString (js "label") ++ js ":" ++ QuoteJSONString s)).
  - rewrite Hl. cbn [member]. rewrite !in_app_iff. right. right. right. left. now left.
  - rewrite !in_app_iff. right. right. now apply QuoteJSONString_wide.
Qed.

(** Whenever a label holds a character above U+00FF (outside the surrogate
    range), [btoa] rejects the serialised list and the render throws. *)
Lemma MapFromAddress_throws_on_wide_label props q p s c :
  In p (locations props) -> label p = Some s -> In c s -> is_wide c = true ->
  MapFromAddress NumberToString props q = Throw InvalidCharacterError.
Proof.
  intros Hp Hl Hc Hw. apply MapFromAddress_throws. unfold mapId, mapId_of.
  rewrite (btoa_throws (JSON_stringify NumberToString (locations props)) c).
  - reflexivity.
  - apply (JSON_stringify_In _ p); [exact Hp|]. now apply (stringify_point_label p s).
  - unfold is_wide in Hw. rewrite !andb_true_iff, !negb_true_iff in Hw. tauto.
Qed.

End Identifier.

(** C4 (the code at the failing input): for one point with explicit
    coordinates whose label and address are written in kanji, the render
    does not return: line 110 throws [InvalidCharacterError] before any
    placeholder or map is produced, whatever the geocoding state. *)
Theorem C4_render_throws_on_non_latin1_label :
  forall NumberToString q,
    MapFromAddress NumberToString (props_of [tokyo_point] None) q
    = Throw InvalidCharacterError.
Proof.
  intros N2S q.
  apply (MapFromAddress_throws_on_wide_label N2S _ q tokyo_point tokyo 26481%N).
  - now left.
  - reflexivity.
  - now left.
  - reflexivity.
Qed.

(** The same through the panel: a place whose name is written in kanji. *)
Lemma MapPanel_to_MapFromAddress_throws :
  forall NumberToString q sel,
    MapFromAddress NumberToString
      (props_of (locationNodes
                   [{| Graph.nodeId := js "n9"; Graph.nodeType := js "place";
                       Graph.nodeProperties :=
                         {| Graph.latitude := Some 35.75%float;
                            Graph.longitude := Some 139.75%float;
                            Graph.address := None; Graph.name := Some tokyo;
                            Graph.label := None; Graph.geometry := None |} |}]
                   sel) None) q
    = Throw InvalidCharacterError.
Proof.
  intros N2S q sel.
  eapply (MapFromAddress_throws_on_wide_label N2S _ q _ tokyo 26481%N).
  - now left.
  - reflexivity.
  - now left.
  - reflexivity.
Qed.

(** ** The view the effect leaves the map with *)

Lemma last_app_one {A : Type} (l : list A) (x d : A) : last (l ++ [x]) d = x.
Proof.
  induction l as [|y l IH]; [reflexivity|].
  cbn [app]. destruct (l ++ [x]) eqn:E.
  - destruct l; discriminate.
  - cbn [last]. exact IH.
Qed.

Section Effect.

Variable ToNumber : jsstring -> number.
Variable toFixed : number -> nat -> jsstring.
Variable L_polygon : list (option number * option number) -> option LeafletError.

(** The calls of lines 248-258 alone: exactly one of them is made when
    there is a resolved coordinate, and it is never the fit to the route. *)
Lemma view_calls_end props theme q ms first rest :
  validCoordinates props q = first :: rest ->
  exists front v,
    view_calls toFixed props theme q ms = front ++ [v]
    /\ is_route_fit v = false
    /\ (centerOnFirst_ props = true ->
        v = setView (Geo.lat first, Geo.lon first) (zoom_ props))
    /\ (centerOnFirst_ props = false -> rest <> [] ->
        v = fitBounds (MarkerBounds ms) pad_margin)
    /\ (centerOnFirst_ props = false -> rest = [] ->
        v = setView (Geo.lat first, Geo.lon first) (zoom_ props)).
Proof.
  intros Hv. unfold view_calls. rewrite Hv.
  destruct (centerOnFirst_ props) eqn:Ec.
  - eexists. eexists. split; [reflexivity|]. repeat split; try discriminate.
  - destruct rest as [|second rest']; cbn [length Nat.ltb Nat.leb Nat.eqb].
    + eexists. eexists. split; [reflexivity|]. repeat split; try discriminate.
      intros _ H. now contradiction H.
    + eexists. eexists. split; [reflexivity|]. repeat split; discriminate.
Qed.

(** Whenever the effect builds a map, the last view call is one of lines
    250, 254 and 257: a route fit (line 244) is always overridden. *)
Lemma final_view_never_route_fit props theme q id w :
  effect ToNumber toFixed L_polygon props theme q id = Some w ->
  exists v, final_view w = Some v /\ is_route_fit v = false.
Proof.
  unfold effect. destruct (validCoordinates props q) as [|first rest] eqn:Ev;
    [discriminate|].
  intros H. injection H as <-. unfold final_view. cbn [viewCalls].
  destruct (view_calls_end props theme q
              (flat_map (marker_of toFixed theme) (processedLocations props q))
              first rest Ev) as (front & v & Hvc & Hnf & _).
  exists v. split; [|exact Hnf].
  rewrite Hvc, map_app. cbn [map]. apply last_app_one.
Qed.

End Effect.

(** C2 (the code at the failing input): one point at (1, 2), the route
    [[0,0],[1,1]] and the default [centerOnFirst]. The effect first fits the
    bounds to the route with margin 0.1 and then sets the view on the first
    point at zoom 15, which is the view the map is left with. *)
Theorem C2_route_fit_is_overridden :
  forall ToNumber toFixed L_polygon theme q id,
  exists w,
    effect ToNumber toFixed L_polygon
           (props_of [point (Some 1%float) (Some 2%float) None None] (Some short_route))
           theme q id = Some w
    /\ viewCalls w
       = [fitBounds (PolylineBounds [(0%float, 0%float); (1%float, 1%float)]) pad_margin;
          setView (1%float, 2%float) 15%float]
    /\ final_view w = Some (setView (1%float, 2%float) 15%float).
Proof.
  intros. eexists. split; [reflexivity|]. split; reflexivity.
Qed.

(** ** The polygon parser *)


Section Polygon.

Variable ToNumber : jsstring -> number.
Variable L_polygon : list (option number * option number) -> option LeafletError.
Variable theme : jsstring.

Lemma coordPairs_length wkt pairs :
  coordPairs ToNumber wkt = Some pairs ->
  exists g, match_polygon wkt = Some g /\ length pairs = length (split_comma g).
Proof.
  unfold coordPairs. destruct (match_polygon wkt) as [g|]; [|discriminate].
  intros H. injection H as <-. exists g. split; [reflexivity|]. apply length_map.
Qed.

(** The [try] body adds a polygon only for a matching string with at least
    three pieces, and only then can [L.polygon] throw. *)
Lemma building_try_cases l wkt :
  match building_try ToNumber L_polygon theme l wkt with
  | inr None =>
      match_polygon wkt = None
      \/ exists g, match_polygon wkt = Some g /\ length (split_comma g) < 3
  | inr (Some p) =>
      coordPairs ToNumber wkt = Some (ring p) /\ 3 <= length (ring p)
      /\ L_polygon (ring p) = None
  | inl err =>
      exists pairs, coordPairs ToNumber wkt = Some pairs /\ 3 <= length pairs
                    /\ L_polygon pairs = Some err
  end.
Proof.
  unfold building_try.
  destruct (coordPairs ToNumber wkt) as [pairs|] eqn:E.
  - destruct (coordPairs_length wkt pairs E) as (g & Hg & Hlen).
    destruct (Nat.ltb_spec (length pairs) 3) as [Hlt | Hge].
    + right. exists g. split; [exact Hg | lia].
    + destruct (L_polygon pairs) as [err|] eqn:El.
      * exists pairs. now repeat split.
      * cbn [ring]. now repeat split.
  - left. unfold coordPairs in E. now destruct (match_polygon wkt).
Qed.


End Polygon.


(** ** The identifier of line 110 and the characters it removes *)

(** Induction over a byte string three bytes at a time, as [b64_encode]
    consumes it. *)
Lemma list_ind3 {A : Type} (P : list A -> Prop) :
  P [] -> (forall a, P [a]) -> (forall a b, P [a; b]) ->
  (forall a b c l, P l -> P (a :: b :: c :: l)) ->
  forall l, P l.
Proof.
  intros H0 H1 H2 H3 l.
  assert (H : forall n l, length l <= n -> P l).
  { induction n as [|n IH]; intros [|a [|b [|c r]]] Hlen; simpl in Hlen;
      try lia; auto.
    apply H3. apply IH. lia. }
  apply (H (length l)). lia.
Qed.

Lemma In_all_below n a : (a < N.of_nat n)%N -> In a (all_below n).
Proof.
  intros H. unfold all_below. apply in_map_iff. exists (N.to_nat a). split.
  - apply N2Nat.id.
  - apply in_seq. lia.
Qed.

Lemma forall_below (n : nat) (P : N -> bool) :
  forallb P (all_below n) = true -> forall a, (a < N.of_nat n)%N -> P a = true.
Proof.
  intros H a Ha. rewrite forallb_forall in H. apply H. now apply In_all_below.
Qed.

Lemma forall_below2 (n m : nat) (P : N -> N -> bool) :
  forallb (fun a => forallb (P a) (all_below m)) (all_below n) = true ->
  forall a b, (a < N.of_nat n)%N -> (b < N.of_nat m)%N -> P a b = true.
Proof.
  intros H a b Ha Hb.
  apply (forall_below m (P a)); [|exact Hb].
  now apply (forall_below n (fun a => forallb (P a) (all_below m))).
Qed.

Lemma b64_encode_3 a b c rest :
  b64_encode (a :: b :: c :: rest)
  = b64_char (idx1 a) :: b64_char (idx2 a b) :: b64_char (idx3 b c)
    :: b64_char (idx4 c) :: b64_encode rest.
Proof. reflexivity. Qed.

Lemma b64_encode_2 a b :
  b64_encode [a; b]
  = [b64_char (idx1 a); b64_char (idx2 a b); b64_char (idx3 b 0); b64_pad].
Proof. unfold idx3. cbn [b64_encode]. now rewrite N.shiftr_0_l, N.lor_0_r. Qed.

Lemma b64_encode_1 a :
  b64_encode [a] = [b64_char (idx1 a); b64_char (idx2 a 0); b64_pad; b64_pad].
Proof. unfold idx2. cbn [b64_encode]. now rewrite N.shiftr_0_l, N.lor_0_r. Qed.

Lemma b64_index_char i : (i < 64)%N -> b64_index (b64_char i) = i.
Proof.
  intros H.
  apply N.eqb_eq.
  apply (forall_below 64 (fun i => N.eqb (b64_index (b64_char i)) i)); [|exact H].
  vm_compute. reflexivity.
Qed.

Lemma b64_char_not_pad i : (i < 64)%N -> N.eqb (b64_char i) b64_pad = false.
Proof.
  intros H. apply negb_true_iff.
  apply (forall_below 64 (fun i => negb (N.eqb (b64_char i) b64_pad))); [|exact H].
  vm_compute. reflexivity.
Qed.

Lemma b64_char_class i :
  (i < 64)%N ->
  is_alnum (b64_char i) || N.eqb (b64_char i) 43 || N.eqb (b64_char i) 47 = true.
Proof.
  intros H.
  apply (forall_below 64
           (fun i => is_alnum (b64_char i) || N.eqb (b64_char i) 43
                     || N.eqb (b64_char i) 47)); [|exact H].
  vm_compute. reflexivity.
Qed.

Lemma idx_bounds a b :
  (a < 256)%N -> (b < 256)%N ->
  (idx1 a < 64 /\ idx2 a b < 64 /\ idx3 a b < 64 /\ idx4 a < 64)%N.
Proof.
  intros Ha Hb.
  pose proof (forall_below2 256 256
    (fun a b => N.ltb (idx1 a) 64 && N.ltb (idx2 a b) 64 && N.ltb (idx3 a b) 64
                && N.ltb (idx4 a) 64)) as H.
  specialize (H ltac:(vm_compute; reflexivity) a b Ha Hb). cbv beta in H.
  rewrite !andb_true_iff, !N.ltb_lt in H. tauto.
Qed.

Lemma bytes_of_indices a b :
  (a < 256)%N -> (b < 256)%N ->
  N.lor (N.shiftl (idx1 a) 2) (N.shiftr (idx2 a b) 4) = a
  /\ N.land (idx2 a b) 15 = N.shiftr b 4
  /\ N.shiftr (idx3 a b) 2 = N.land a 15
  /\ N.land (idx3 a b) 3 = N.shiftr b 6
  /\ N.lor (N.shiftl (N.shiftr a 4) 4) (N.land a 15) = a
  /\ N.lor (N.shiftl (N.shiftr a 6) 6) (idx4 a) = a.
Proof.
  intros Ha Hb.
  pose proof (forall_below2 256 256
    (fun a b =>
       N.eqb (N.lor (N.shiftl (idx1 a) 2) (N.shiftr (idx2 a b) 4)) a
       && N.eqb (N.land (idx2 a b) 15) (N.shiftr b 4)
       && N.eqb (N.shiftr (idx3 a b) 2) (N.land a 15)
       && N.eqb (N.land (idx3 a b) 3) (N.shiftr b 6)
       && N.eqb (N.lor (N.shiftl (N.shiftr a 4) 4) (N.land a 15)) a
       && N.eqb (N.lor (N.shiftl (N.shiftr a 6) 6) (idx4 a)) a)) as H.
  specialize (H ltac:(vm_compute; reflexivity) a b Ha Hb). cbv beta in H.
  rewrite !andb_true_iff, !N.eqb_eq in H. tauto.
Qed.

Lemma is_latin1_lt c : is_latin1 c = true -> (c < 256)%N.
Proof. unfold is_latin1. rewrite N.leb_le. lia. Qed.

Lemma decode_bytes a b c :
  (a < 256)%N -> (b < 256)%N -> (c < 256)%N ->
  byte1 (b64_char (idx1 a)) (b64_char (idx2 a b)) = a
  /\ byte2 (b64_char (idx2 a b)) (b64_char (idx3 b c)) = b
  /\ byte3 (b64_char (idx3 b c)) (b64_char (idx4 c)) = c.
Proof.
  intros Ha Hb Hc.
  destruct (idx_bounds a b Ha Hb) as (B1 & B2 & _ & _).
  destruct (idx_bounds b c Hb Hc) as (_ & _ & B3 & _).
  destruct (idx_bounds c c Hc Hc) as (_ & _ & _ & B4).
  destruct (bytes_of_indices a b Ha Hb) as (E1 & E2 & _).
  destruct (bytes_of_indices b c Hb Hc) as (_ & _ & E3 & E4 & E5 & _).
  destruct (bytes_of_indices c c Hc Hc) as (_ & _ & _ & _ & _ & E6).
  unfold byte1, byte2, byte3. rewrite !b64_index_char by assumption.
  rewrite E1, E2, E3, E4, E5, E6. now repeat split.
Qed.

(** Decoding inverts encoding on Latin-1 text, for every filter [keep] that
    drops the padding and keeps the other characters of the encoded text. *)
Lemma b64_decode_filter (keep : code_unit -> bool) :
  keep b64_pad = false ->
  forall s,
    forallb is_latin1 s = true ->
    forallb (fun c => keep c || N.eqb c b64_pad) (b64_encode s) = true ->
    b64_decode (filter keep (b64_encode s)) = s.
Proof.
  intros Hpad.
  assert (Hkeep : forall i c, (i < 64)%N -> c = b64_char i ->
                    keep c || N.eqb c b64_pad = true -> keep c = true).
  { intros i c Hi -> H. rewrite (b64_char_not_pad i Hi), orb_false_r in H. exact H. }
  induction s as [ | a | a b | a b c rest IH] using list_ind3; intros Hl He.
  - reflexivity.
  - cbn [forallb] in Hl. rewrite !andb_true_iff in Hl. destruct Hl as (Ha & _).
    apply is_latin1_lt in Ha.
    assert (H0 : (0 < 256)%N) by lia.
    destruct (idx_bounds a 0 Ha H0) as (B1 & B2 & _).
    rewrite b64_encode_1 in He |- *. cbn [forallb] in He.
    rewrite !andb_true_iff in He. destruct He as (K1 & K2 & _).
    apply (Hkeep _ _ B1 eq_refl) in K1. apply (Hkeep _ _ B2 eq_refl) in K2.
    cbn [filter]. rewrite K1, K2, Hpad. cbn [b64_decode].
    destruct (decode_bytes a 0 0 Ha H0 H0) as (D1 & _). now rewrite D1.
  - cbn [forallb] in Hl. rewrite !andb_true_iff in Hl. destruct Hl as (Ha & Hb & _).
    apply is_latin1_lt in Ha, Hb.
    assert (H0 : (0 < 256)%N) by lia.
    destruct (idx_bounds a b Ha Hb) as (B1 & B2 & _).
    destruct (idx_bounds b 0 Hb H0) as (_ & _ & B3 & _).
    rewrite b64_encode_2 in He |- *. cbn [forallb] in He.
    rewrite !andb_true_iff in He. destruct He as (K1 & K2 & K3 & _).
    apply (Hkeep _ _ B1 eq_refl) in K1. apply (Hkeep _ _ B2 eq_refl) in K2.
    apply (Hkeep _ _ B3 eq_refl) in K3.
    cbn [filter]. rewrite K1, K2, K3, Hpad. cbn [b64_decode].
    destruct (decode_bytes a b 0 Ha Hb H0) as (D1 & D2 & _). now rewrite D1, D2.
  - cbn [forallb] in Hl. rewrite !andb_true_iff in Hl.
    destruct Hl as (Ha & Hb & Hc & Hl).
    apply is_latin1_lt in Ha, Hb, Hc.
    destruct (idx_bounds a b Ha Hb) as (B1 & B2 & _).
    destruct (idx_bounds b c Hb Hc) as (_ & _ & B3 & _).
    destruct (idx_bounds c c Hc Hc) as (_ & _ & _ & B4).
    rewrite b64_encode_3 in He |- *. cbn [forallb] in He.
    rewrite !andb_true_iff in He. destruct He as (K1 & K2 & K3 & K4 & He).
    apply (Hkeep _ _ B1 eq_refl) in K1. apply (Hkeep _ _ B2 eq_refl) in K2.
    apply (Hkeep _ _ B3 eq_refl) in K3. apply (Hkeep _ _ B4 eq_refl) in K4.
    cbn [filter]. rewrite K1, K2, K3, K4. cbn [b64_decode].
    destruct (decode_bytes a b c Ha Hb Hc) as (D1 & D2 & D3).
    rewrite D1, D2, D3. now rewrite (IH Hl He).
Qed.

(** Every character of an encoded Latin-1 text is alphanumeric, ['+'],
    ['/'] or the padding. *)
Lemma b64_encode_chars s :
  forallb is_latin1 s = true ->
  forallb (fun c => is_alnum c || N.eqb c 43 || N.eqb c 47 || N.eqb c b64_pad)
          (b64_encode s) = true.
Proof.
  assert (Hc : forall i, (i < 64)%N ->
            is_alnum (b64_char i) || N.eqb (b64_char i) 43 || N.eqb (b64_char i) 47
            || N.eqb (b64_char i) b64_pad = true).
  { intros i Hi. now rewrite (b64_char_class i Hi). }
  assert (H0 : (0 < 256)%N) by lia.
  induction s as [ | a | a b | a b c rest IH] using list_ind3; intros Hl.
  - reflexivity.
  - cbn [forallb] in Hl. rewrite !andb_true_iff in Hl. destruct Hl as (Ha & _).
    apply is_latin1_lt in Ha. destruct (idx_bounds a 0 Ha H0) as (B1 & B2 & _).
    rewrite b64_encode_1. cbn [forallb]. rewrite (Hc _ B1), (Hc _ B2). reflexivity.
  - cbn [forallb] in Hl. rewrite !andb_true_iff in Hl. destruct Hl as (Ha & Hb & _).
    apply is_latin1_lt in Ha, Hb.
    destruct (idx_bounds a b Ha Hb) as (B1 & B2 & _).
    destruct (idx_bounds b 0 Hb H0) as (_ & _ & B3 & _).
    rewrite b64_encode_2. cbn [forallb].
    rewrite (Hc _ B1), (Hc _ B2), (Hc _ B3). reflexivity.
  - cbn [forallb] in Hl. rewrite !andb_true_iff in Hl.
    destruct Hl as (Ha & Hb & Hc' & Hl).
    apply is_latin1_lt in Ha, Hb, Hc'.
    destruct (idx_bounds a b Ha Hb) as (B1 & B2 & _).
    destruct (idx_bounds b c Hb Hc') as (_ & _ & B3 & _).
    destruct (idx_bounds c c Hc' Hc') as (_ & _ & _ & B4).
    rewrite b64_encode_3. cbn [forallb].
    rewrite (Hc _ B1), (Hc _ B2), (Hc _ B3), (Hc _ B4), (IH Hl). reflexivity.
Qed.

(** X2: [btoa] itself is injective: two strings with the same base64 text
    are equal. *)
Lemma btoa_injective s1 s2 b :
  btoa s1 = Ok b -> btoa s2 = Ok b -> s1 = s2.
Proof.
  intros H1 H2. apply btoa_Ok in H1 as [L1 ->]. apply btoa_Ok in H2 as [L2 E].
  set (keep := fun c => negb (N.eqb c b64_pad)).
  assert (Hk : forall s, forallb (fun c => keep c || N.eqb c b64_pad) (b64_encode s) = true).
  { intros s. apply forallb_forall. intros c _. unfold keep.
    now destruct (N.eqb c b64_pad). }
  rewrite <- (b64_decode_filter keep eq_refl s1 L1 (Hk s1)).
  rewrite <- (b64_decode_filter keep eq_refl s2 L2 (Hk s2)).
  now rewrite E.
Qed.

Lemma btoa_injective_witness : js "Man" = js "Man".
Proof. exact (btoa_injective (js "Man") (js "Man") (js "TWFu") eq_refl eq_refl). Defined.

Lemma strip_keeps_plain s :
  forallb is_latin1 s = true -> no_plus_slash (b64_encode s) = true ->
  forallb (fun c => is_alnum c || N.eqb c b64_pad) (b64_encode s) = true.
Proof.
  intros Hl Hp. pose proof (b64_encode_chars s Hl) as Hc.
  unfold no_plus_slash in Hp. rewrite forallb_forall in Hp, Hc |- *.
  intros c Hin. specialize (Hp c Hin). specialize (Hc c Hin).
  destruct (is_alnum c), (N.eqb c 43), (N.eqb c 47), (N.eqb c b64_pad);
    simpl in *; congruence.
Qed.

Lemma app_prefix_inj {A : Type} (p a b : list A) : p ++ a = p ++ b -> a = b.
Proof. apply app_inv_head. Qed.

Section IdentifierCollisions.

Variable NumberToString : number -> jsstring.

(** C5 (amended): two point lists whose identifiers are computed and equal
    have the same JSON serialisation, provided that the base64 text of
    neither serialisation holds a ['+'] or a ['/'] (the characters, with the
    padding, that line 110 removes). *)
Theorem C5_identifier_injective_up_to_removed_characters
    (l1 l2 : list LocationPoint) (id : jsstring) :
  mapId_of NumberToString l1 = Ok id ->
  mapId_of NumberToString l2 = Ok id ->
  no_plus_slash (b64_encode (JSON_stringify NumberToString l1)) = true ->
  no_plus_slash (b64_encode (JSON_stringify NumberToString l2)) = true ->
  JSON_stringify NumberToString l1 = JSON_stringify NumberToString l2.
Proof.
  unfold mapId_of. intros H1 H2 P1 P2.
  destruct (btoa (JSON_stringify NumberToString l1)) as [b1|] eqn:E1; [|discriminate].
  destruct (btoa (JSON_stringify NumberToString l2)) as [b2|] eqn:E2; [|discriminate].
  apply btoa_Ok in E1 as [L1 ->]. apply btoa_Ok in E2 as [L2 ->].
  assert (H : js "leaflet-map-" ++ strip_non_alnum (b64_encode (JSON_stringify NumberToString l1))
              = js "leaflet-map-" ++ strip_non_alnum (b64_encode (JSON_stringify NumberToString l2)))
    by congruence.
  clear H1 H2. apply app_prefix_inj in H. unfold strip_non_alnum in H.
  rewrite <- (b64_decode_filter is_alnum eq_refl _ L1 (strip_keeps_plain _ L1 P1)).
  rewrite <- (b64_decode_filter is_alnum eq_refl _ L2 (strip_keeps_plain _ L2 P2)).
  now rewrite H.
Qed.

End IdentifierCollisions.

(** The serialisation itself identifies some distinct lists: a [lat] that
    is NaN and one that is infinite are both written [null]. *)
Lemma JSON_stringify_identifies_non_finite :
  forall NumberToString,
    JSON_stringify NumberToString [point (Some nan) None None None]
    = JSON_stringify NumberToString [point (Some infinity) None None None].
Proof. intros. reflexivity. Qed.

(** C5 (as stated, refuted): the one-point lists with label [">"] and with
    label ["?"] are distinct, and both get the identifier
    [leaflet-map-W3sibGFiZWwiOiIIn1d]: their base64 texts differ only in a
    ['+'] against a ['/'], which line 110 removes. *)
Lemma C5_distinct_lists_share_identifier :
  [greater_than_point] <> [question_mark_point]
  /\ (forall NumberToString,
        mapId_of NumberToString [greater_than_point]
        = Ok (js "leaflet-map-W3sibGFiZWwiOiIIn1d")
        /\ mapId_of NumberToString [question_mark_point]
           = Ok (js "leaflet-map-W3sibGFiZWwiOiIIn1d")).
Proof.
  split.
  - intros H. discriminate H.
  - intros N2S. split; reflexivity.
Qed.

Lemma C5_witness :
  JSON_stringify (fun _ => js "0") [nice_by_address]
  = JSON_stringify (fun _ => js "0") [point None None (Some (js "Nice")) None].
Proof.
  exact (C5_identifier_injective_up_to_removed_characters
           (fun _ => js "0") [nice_by_address] [point None None (Some (js "Nice")) None]
           (js "leaflet-map-W3siYWRkcmVzcyI6Ik5pY2UifV0")
           eq_refl eq_refl eq_refl eq_refl).
Defined.

(** ** Further properties of the two components *)

(** An instance: for the route [[0,0],[1,1]] with [distanceM = 1500] the
    polyline gets the popup "Route: " followed by [(1.5).toFixed(2)] and
    " km", and the caller's colour being absent, the theme's red. *)
Lemma route_popup_text_example :
  forall toFixed l,
    route_polyline toFixed (props_of l (Some short_route)) (js "dark")
    = Some {| path := [(0%float, 0%float); (1%float, 1%float)];
              lineColor := js "#ef4444";
              linePopup := Some (js "Route: " ++ toFixed 1.5%float 2 ++ js " km") |}.
Proof. intros. reflexivity. Qed.

(** ** Markers and polygons of the widget *)

Section Drawing.

Variable ToNumber : jsstring -> number.
Variable toFixed : number -> nat -> jsstring.
Variable L_polygon : list (option number * option number) -> option LeafletError.

Lemma marker_of_position theme l :
  map position (marker_of toFixed theme l)
  = match coordinates l with
    | Some c => [(Geo.lat c, Geo.lon c)]
    | None => []
    end.
Proof.
  unfold marker_of. destruct (coordinates l) as [c|]; [|reflexivity].
  destruct (if match isOrigin (location l) with Some b => b | None => false end
            then _ else _) as [icon z].
  reflexivity.
Qed.

Lemma markers_positions theme pls :
  map position (flat_map (marker_of toFixed theme) pls)
  = map (fun c => (Geo.lat c, Geo.lon c))
        (flat_map (fun l => match coordinates l with Some c => [c] | None => [] end) pls).
Proof.
  induction pls as [|l pls IH]; [reflexivity|].
  cbn [flat_map]. rewrite !map_app, IH, marker_of_position.
  now destruct (coordinates l).
Qed.

Lemma effect_marker_positions props theme q id w :
  effect ToNumber toFixed L_polygon props theme q id = Some w ->
  map position (markers w)
  = map (fun c => (Geo.lat c, Geo.lon c)) (validCoordinates props q)
  /\ container w = id.
Proof.
  unfold effect. destruct (validCoordinates props q) as [|c0 vs] eqn:Ev; [discriminate|].
  intros H. injection H as <-. cbn [markers container]. split; [|reflexivity].
  rewrite <- Ev. apply markers_positions.
Qed.

(** X6: every polygon the effect adds comes from a location whose type is
    'building' and whose geometry is a non-empty string that the pattern
    matches; its ring is the parsed list of pairs, has at least three
    pairs and was accepted by Leaflet; its colour is the amber of the
    theme and its popup the location's label or 'Building'. *)
Theorem X6_polygons_come_from_buildings (props : MapFromAddressProps)
    (theme : jsstring) (q : Query.Result) (p : Polygon) :
  In p (flat_map (building_of ToNumber L_polygon theme) (processedLocations props q)) ->
  exists l wkt,
    In l (processedLocations props q)
    /\ nodeType (location l) = Some (js "building")
    /\ geometry (location l) = Some wkt /\ wkt <> []
    /\ coordPairs ToNumber wkt = Some (ring p)
    /\ 3 <= length (ring p)
    /\ L_polygon (ring p) = None
    /\ polygonColor p = amber theme
    /\ polygonPopup p = or_string (label (location l)) (js "Building").
Proof.
  intros Hin. apply in_flat_map in Hin as (l & Hl & Hp).
  unfold building_of in Hp.
  destruct (geometry (location l)) as [wkt|] eqn:Eg; [|destruct Hp].
  destruct (negb (truthy_str wkt)
            || negb (ostr_eqb (nodeType (location l)) (Some (js "building")))) eqn:Eb;
    [destruct Hp|].
  apply orb_false_iff in Eb as [Et Eb].
  apply negb_false_iff in Et, Eb. apply ostr_eqb_eq in Eb.
  pose proof (building_try_cases ToNumber L_polygon theme l wkt) as Hc.
  destruct (building_try ToNumber L_polygon theme l wkt) as [err | [p'|]] eqn:Et';
    try destruct Hp.
  - subst p'. destruct Hc as (Hpairs & Hlen & Hok).
    exists l, wkt. split; [exact Hl|]. split; [exact Eb|]. split; [exact Eg|].
    split; [now destruct wkt|]. split; [exact Hpairs|]. split; [exact Hlen|].
    split; [exact Hok|].
    unfold building_try in Et'. rewrite Hpairs in Et'.
    destruct (length (ring p) <? 3); [discriminate|].
    rewrite Hok in Et'. injection Et' as <-. split; reflexivity.
  - destruct H.
Qed.

End Drawing.

(** ** The panel and the renderer together *)

Lemma panel_point_coordinates props q sel node :
  coordinates (processLocation props q (toLocationPoint sel node))
  = Some (node_coordinates node).
Proof.
  now rewrite (processLocation_explicit props q _ _ _
                 (toLocationPoint_lat sel node) (toLocationPoint_lon sel node)).
Qed.

Lemma panel_points_resolved props q sel ns :
  flat_map (fun l => match coordinates l with Some c => [c] | None => [] end)
           (map (processLocation props q) (map (toLocationPoint sel) ns))
  = map node_coordinates ns.
Proof.
  induction ns as [|n ns IH]; [reflexivity|].
  cbn [map flat_map]. rewrite panel_point_coordinates, IH. reflexivity.
Qed.

Lemma panel_validCoordinates st rq q :
  validCoordinates (mapProps (MapPanel st rq)) q
  = map node_coordinates (filter isLocationNode (nodes st)).
Proof.
  unfold validCoordinates, processedLocations. cbn [MapPanel mapProps locations].
  unfold locationNodes. apply panel_points_resolved.
Qed.

Section PanelAndRenderer.

Variable ToNumber : jsstring -> number.
Variable toFixed : number -> nat -> jsstring.
Variable L_polygon : list (option number * option number) -> option LeafletError.

(** X8: the marker the panel's map has for a node: it is green and raised
    when exactly two nodes are selected and the node has the identifier of
    the first, else red and raised when it has that of the second, else of
    the theme's colour and not raised; its popup is the node's label, else
    its name, else its address, else its coordinates with six decimals. *)
Theorem X8_panel_marker_colour_and_popup :
  forall props theme q sel node,
    exists m,
      marker_of toFixed theme (processLocation props q (toLocationPoint sel node)) = [m]
      /\ position m = (Geo.lat (node_coordinates node), Geo.lon (node_coordinates node))
      /\ (iconColor m, zIndexOffset m)
         = (if isSelectedAt sel 0 node then (js "#22c55e", 1000%Z)
            else if isSelectedAt sel 1 node then (js "#ef4444", 1000%Z)
            else (if str_eqb theme (js "dark") then js "#3b82f6" else js "#2563eb", 0%Z))
      /\ popup m
         = or_string
             (or_else (or_else (Graph.label (Graph.nodeProperties node))
                               (Graph.name (Graph.nodeProperties node)))
                      (Graph.address (Graph.nodeProperties node)))
             (toFixed (Geo.lat (node_coordinates node)) 6 ++ js ", "
              ++ toFixed (Geo.lon (node_coordinates node)) 6).
Proof.
  intros props theme q sel node.
  unfold marker_of. rewrite panel_point_coordinates.
  rewrite (processLocation_explicit props q _ _ _
             (toLocationPoint_lat sel node) (toLocationPoint_lon sel node)).
  cbn [location toLocationPoint isOrigin isDestination label address].
  unfold is_dark.
  destruct (isSelectedAt sel 0 node), (isSelectedAt sel 1 node);
    (eexists; split; [reflexivity|]; split; [reflexivity|]; split; [reflexivity|]);
    cbn [popup];
    destruct (Graph.label (Graph.nodeProperties node)) as [[|? ?]|],
             (Graph.name (Graph.nodeProperties node)) as [[|? ?]|],
             (Graph.address (Graph.nodeProperties node)) as [[|? ?]|];
    reflexivity.
Qed.

(** The polyline the effect's body draws for the panel's props (lines
    228-241 on the route of lines 53-60). *)
Lemma panel_route_polyline :
  forall st rq theme,
    match route_polyline toFixed (mapProps (MapPanel st rq)) theme with
    | Some pl =>
        exists d,
          RouteQuery.data rq = Some d /\ RouteQuery.success d = true
          /\ 2 <= length (RouteQuery.route d)
          /\ path pl = RouteQuery.route d
          /\ lineColor pl = js "#3b82f6"
          /\ linePopup pl
             = match RouteQuery.distance_m d with
               | Some m => if truthy_num m
                           then Some (js "Route: " ++ toFixed (m / 1000)%float 2 ++ js " km")
                           else None
               | None => None
               end
    | None =>
        forall d, RouteQuery.data rq = Some d ->
                  RouteQuery.success d = false \/ length (RouteQuery.route d) < 2
    end.
Proof.
  intros st rq theme. unfold route_polyline. cbn [MapPanel mapProps route].
  unfold MapPanel_route.
  destruct (RouteQuery.data rq) as [d|]; [|intros d H; discriminate].
  destruct (RouteQuery.success d) eqn:Es.
  - cbn [Route.coordinates Route.distanceM Route.color].
    destruct (Nat.ltb_spec 1 (length (RouteQuery.route d))) as [Hl | Hl].
    + exists d. split; [reflexivity|]. split; [exact Es|]. split; [lia|].
      split; [reflexivity|]. split; [reflexivity|].
      cbn [linePopup]. destruct (RouteQuery.distance_m d) as [m|]; [|reflexivity].
      cbn [truthy_onum]. now destruct (truthy_num m).
    + intros d' H. injection H as <-. right. lia.
  - intros d' H. injection H as <-. now left.
Qed.

End PanelAndRenderer.

(** ** Parsing a polygon text written with single spaces *)

Lemma is_token_unit_spec c :
  is_token_unit c = true ->
  is_space c = false /\ c <> 44%N /\ c <> 41%N /\ is_line_terminator c = false.
Proof.
  unfold is_token_unit. rewrite !andb_true_iff, !negb_true_iff.
  intros [[Hs Hc] Hp]. apply N.eqb_neq in Hc, Hp.
  split; [exact Hs|]. split; [exact Hc|]. split; [exact Hp|].
  unfold is_line_terminator. unfold is_space in Hs.
  repeat match goal with
         | H : (_ || _)%bool = false |- _ => apply orb_false_iff in H as [? ?]
         end.
  repeat match goal with
         | H : N.eqb c ?k = false |- context [N.eqb c ?k] => rewrite H
         end.
  reflexivity.
Qed.

Lemma is_token_spec t :
  is_token t = true -> t <> [] /\ forall c, In c t -> is_token_unit c = true.
Proof.
  unfold is_token. rewrite andb_true_iff, forallb_forall. intros [Hn Hall].
  split; [|exact Hall]. now destruct t.
Qed.

Lemma lazy_group_closed body rest :
  (forall c, In c body -> c <> 41%N /\ is_line_terminator c = false) ->
  lazy_group (body ++ [41; 41]%N ++ rest) = Some body.
Proof.
  induction body as [|c body IH]; intros H; [reflexivity|].
  destruct (H c (or_introl eq_refl)) as [Hc Hl].
  assert (IH' : lazy_group (body ++ [41; 41]%N ++ rest) = Some body)
    by (apply IH; intros x Hx; apply H; now right).
  change ((c :: body) ++ [41; 41]%N ++ rest) with (c :: (body ++ [41; 41]%N ++ rest)).
  cbn [lazy_group].
  destruct (body ++ [41; 41]%N ++ rest) as [|d r] eqn:E.
  - destruct body; discriminate.
  - apply N.eqb_neq in Hc. rewrite Hc, Hl. cbn [andb]. now rewrite IH'.
Qed.

Lemma polygon_here_written body :
  polygon_here (js "POLYGON((" ++ body) = lazy_group body.
Proof. reflexivity. Qed.

Lemma match_polygon_here wkt g :
  polygon_here wkt = Some g -> match_polygon wkt = Some g.
Proof. intros H. destruct wkt; cbn [match_polygon]; now rewrite H. Qed.

Lemma split_comma_nonempty s : split_comma s <> [].
Proof.
  destruct s as [|c r]; [discriminate|]. cbn [split_comma].
  destruct (N.eqb c 44); [discriminate|]. now destruct (split_comma r).
Qed.

Lemma split_comma_piece p s :
  (forall c, In c p -> c <> 44%N) ->
  split_comma (p ++ 44%N :: s) = p :: split_comma s.
Proof.
  induction p as [|c p IH]; intros H; [reflexivity|].
  cbn [app split_comma].
  assert (Hc : N.eqb c 44 = false) by (apply N.eqb_neq, H; now left).
  rewrite Hc, IH; [reflexivity|]. intros x Hx. apply H. now right.
Qed.

Lemma split_comma_last p :
  (forall c, In c p -> c <> 44%N) -> split_comma p = [p].
Proof.
  induction p as [|c p IH]; intros H; [reflexivity|].
  cbn [split_comma].
  assert (Hc : N.eqb c 44 = false) by (apply N.eqb_neq, H; now left).
  rewrite Hc, IH; [reflexivity|]. intros x Hx. apply H. now right.
Qed.

(** Splitting at the commas what was joined with [", "]: the pieces, each
    but the first with the space in front. *)
Lemma split_comma_join parts : forall p,
  (forall q, In q (p :: parts) -> forall c, In c q -> c <> 44%N) ->
  split_comma (join (js ", ") (p :: parts)) = p :: map (cons 32%N) parts.
Proof.
  induction parts as [|p' parts IH]; intros p H.
  - cbn [join map]. apply split_comma_last. apply H. now left.
  - change (join (js ", ") (p :: p' :: parts))
      with (p ++ 44%N :: 32%N :: join (js ", ") (p' :: parts)).
    rewrite split_comma_piece by (apply H; now left).
    cbn [split_comma]. cbn [N.eqb Pos.eqb].
    rewrite IH by (intros q Hq; apply H; now right).
    reflexivity.
Qed.

Lemma skip_spaces_token t s :
  is_token t = true -> skip_spaces (t ++ s) = t ++ s.
Proof.
  intros Ht. apply is_token_spec in Ht as [Hn Hall].
  destruct t as [|c t]; [contradiction|].
  destruct (is_token_unit_spec c (Hall c (or_introl eq_refl))) as (Hs & _).
  cbn [app skip_spaces]. now rewrite Hs.
Qed.

Lemma trim_end_token pre t :
  is_token t = true -> trim_end (pre ++ t) = pre ++ t.
Proof.
  intros Ht. apply is_token_spec in Ht as [Hn Hall].
  assert (Ht : trim_end t = t).
  { clear Hn. induction t as [|c t IH]; [reflexivity|].
    destruct (is_token_unit_spec c (Hall c (or_introl eq_refl))) as (Hs & _).
    cbn [trim_end]. rewrite IH by (intros x Hx; apply Hall; now right).
    destruct t; [now rewrite Hs | reflexivity]. }
  induction pre as [|c pre IH]; [exact Ht|].
  cbn [app trim_end]. rewrite IH.
  destruct (pre ++ t) eqn:E; [|reflexivity].
  apply app_eq_nil in E as [_ E]. contradiction.
Qed.

Lemma split_spaces_from_nonempty b s : split_spaces_from b s <> [].
Proof.
  revert b. induction s as [|c r IH]; intros b; [discriminate|].
  cbn [split_spaces_from]. destruct (is_space c).
  - destruct b; [apply IH | discriminate].
  - now destruct (split_spaces_from false r).
Qed.

Lemma split_spaces_from_units t s :
  (forall c, In c t -> is_token_unit c = true) ->
  exists h rest,
    split_spaces_from false s = h :: rest
    /\ split_spaces_from false (t ++ s) = (t ++ h) :: rest.
Proof.
  induction t as [|c t IH]; intros Hall.
  - destruct (split_spaces_from false s) as [|h rest] eqn:E.
    + now destruct (split_spaces_from_nonempty false s).
    + exists h, rest. now split.
  - destruct IH as (h & rest & Hs & Ht); [intros x Hx; apply Hall; now right|].
    exists h, rest. split; [exact Hs|].
    destruct (is_token_unit_spec c (Hall c (or_introl eq_refl))) as (Hsp & _).
    cbn [app split_spaces_from]. now rewrite Hsp, Ht.
Qed.

Lemma split_spaces_pair x y :
  is_token x = true -> is_token y = true ->
  split_spaces (x ++ 32%N :: y) = [x; y].
Proof.
  intros Hx Hy.
  apply is_token_spec in Hx as [_ Hx]. apply is_token_spec in Hy as [Hny Hy].
  unfold split_spaces.
  destruct (split_spaces_from_units x (32%N :: y) Hx) as (h & rest & Hs & Ht).
  rewrite Ht. cbn [split_spaces_from] in Hs.
  change (is_space 32%N) with true in Hs. cbn iota in Hs.
  injection Hs as <- <-. rewrite app_nil_r. f_equal.
  destruct y as [|c y]; [contradiction|].
  destruct (is_token_unit_spec c (Hy c (or_introl eq_refl))) as (Hsp & _).
  destruct (split_spaces_from_units (c :: y) [] Hy) as (h & rest & Hs & Ht').
  cbn [split_spaces_from] in Hs. injection Hs as <- <-.
  rewrite !app_nil_r in Ht'.
  cbn [split_spaces_from] in Ht' |- *. rewrite Hsp in Ht' |- *. exact Ht'.
Qed.

Section WrittenPolygon.

Variable ToNumber : jsstring -> number.

Lemma coordPair_written x y lead :
  is_token x = true -> is_token y = true ->
  coordPair ToNumber ((if lead : bool then [32%N] else []) ++ pair_text (x, y))
  = (Some (ToNumber y), Some (ToNumber x)).
Proof.
  intros Hx Hy. unfold coordPair, pair_text, trim. cbn [fst snd].
  assert (Hs : skip_spaces ((if lead then [32%N] else []) ++ x ++ js " " ++ y)
               = x ++ 32%N :: y).
  { destruct lead; cbn [app]; [change (is_space 32%N) with true; cbn iota|];
      apply (skip_spaces_token x (32%N :: y) Hx). }
  rewrite Hs.
  assert (Ht : trim_end (x ++ 32%N :: y) = x ++ 32%N :: y).
  { pose proof (trim_end_token (x ++ [32%N]) y Hy) as E.
    rewrite <- app_assoc in E. exact E. }
  rewrite Ht. now rewrite (split_spaces_pair x y Hx Hy).
Qed.

(** X9: a polygon written as ["POLYGON((lon lat, lon lat, ...))"], with at
    least one pair, single spaces and coordinates free of white space,
    commas and closing parentheses, is parsed into one pair per written
    pair, in order, each with [Number] of the second text as latitude and
    of the first as longitude. *)
Theorem X9_written_polygon_is_parsed (pairs : list (jsstring * jsstring)) :
  pairs <> [] ->
  forallb (fun p => is_token (fst p) && is_token (snd p)) pairs = true ->
  coordPairs ToNumber (wkt_polygon pairs)
  = Some (map (fun p => (Some (ToNumber (snd p)), Some (ToNumber (fst p)))) pairs).
Proof.
  intros Hne Htok. rewrite forallb_forall in Htok.
  assert (Hunits : forall p, In p pairs -> forall c, In c (pair_text p) ->
                     c = 32%N \/ is_token_unit c = true).
  { intros p Hp c Hc. specialize (Htok p Hp). apply andb_true_iff in Htok as [H1 H2].
    apply is_token_spec in H1 as [_ H1]. apply is_token_spec in H2 as [_ H2].
    unfold pair_text in Hc. rewrite !in_app_iff in Hc.
    destruct Hc as [Hc | [[Hc | []] | Hc]]; [right; now apply H1 | now left | right; now apply H2]. }
  assert (Hbody : forall c, In c (join (js ", ") (map pair_text pairs)) ->
                    c <> 41%N /\ is_line_terminator c = false).
  { intros c Hc.
    assert (Hcase : c = 44%N \/ c = 32%N \/ is_token_unit c = true).
    { clear Hne Htok. induction pairs as [|p ps IH]; [destruct Hc|].
      destruct ps as [|p' ps'].
      - cbn [map join] in Hc. right. apply (Hunits p (or_introl eq_refl) c Hc).
      - change (join (js ", ") (map pair_text (p :: p' :: ps')))
          with (pair_text p ++ 44%N :: 32%N :: join (js ", ") (map pair_text (p' :: ps')))
          in Hc.
        apply in_app_or in Hc as [Hc | [Hc | [Hc | Hc]]].
        + right. apply (Hunits p (or_introl eq_refl) c Hc).
        + now left.
        + right. now left.
        + apply IH; [|exact Hc]. intros q Hq. apply Hunits. now right. }
    destruct Hcase as [-> | [-> | Hu]]; [now split | now split |].
    now destruct (is_token_unit_spec c Hu) as (_ & _ & H41 & Hlt). }
  unfold coordPairs, wkt_polygon.
  rewrite (match_polygon_here _ (join (js ", ") (map pair_text pairs))).
  2:{ rewrite polygon_here_written. exact (lazy_group_closed _ [] Hbody). }
  destruct pairs as [|p ps]; [contradiction|].
  cbn [map]. rewrite split_comma_join.
  2:{ intros q Hq c Hc Hcomma. subst c.
      change (pair_text p :: map pair_text ps) with (map pair_text (p :: ps)) in Hq.
      apply in_map_iff in Hq as (p0 & <- & Hp0).
      destruct (Hunits p0 Hp0 44%N Hc) as [H | H]; discriminate. }
  cbn [map]. f_equal. f_equal.
  - destruct p as [x y]. specialize (Htok (x, y) (or_introl eq_refl)).
    apply andb_true_iff in Htok as [Hx Hy].
    apply (coordPair_written x y false Hx Hy).
  - rewrite map_map. rewrite map_map. apply map_ext_in. intros [x y] Hin.
    specialize (Htok (x, y) (or_intror Hin)).
    apply andb_true_iff in Htok as [Hx Hy].
    apply (coordPair_written x y true Hx Hy).
Qed.

End WrittenPolygon.

Lemma X9_witness :
  coordPairs ToNumber_digits
    (wkt_polygon [(js "10", js "20"); (js "11", js "21"); (js "12", js "19")])
  = Some [(Some 20%float, Some 10%float); (Some 21%float, Some 11%float);
          (Some 19%float, Some 12%float)].
Proof.
  exact (X9_written_polygon_is_parsed ToNumber_digits
           [(js "10", js "20"); (js "11", js "21"); (js "12", js "19")]
           ltac:(discriminate) eq_refl).
Defined.

(** ** Inputs on which the render cannot throw *)

Lemma hex_digit_latin1 d : is_latin1 (hex_digit d) = true.
Proof.
  unfold hex_digit.
  destruct (nth_in_or_default (N.to_nat d) (js "0123456789abcdef") 0%N) as [H | ->];
    [|reflexivity].
  assert (Hall : forallb is_latin1 (js "0123456789abcdef") = true) by reflexivity.
  rewrite forallb_forall in Hall. now apply Hall.
Qed.

Lemma UnicodeEscape_latin1 c : forallb is_latin1 (UnicodeEscape c) = true.
Proof.
  unfold UnicodeEscape. rewrite forallb_app. cbn [forallb].
  now rewrite !hex_digit_latin1.
Qed.

Lemma quote_unit_latin1 c :
  is_latin1 c = true -> forallb is_latin1 (quote_unit c) = true.
Proof.
  intros Hc. unfold quote_unit.
  repeat match goal with
         | |- context [if N.eqb c ?k then _ else _] =>
             destruct (N.eqb c k); [reflexivity|]
         end.
  destruct ((c <? 32)%N || is_leading_surrogate c || is_trailing_surrogate c).
  - apply UnicodeEscape_latin1.
  - cbn [forallb]. now rewrite Hc.
Qed.

Lemma latin1_not_leading c : is_latin1 c = true -> is_leading_surrogate c = false.
Proof.
  unfold is_latin1, is_leading_surrogate. rewrite N.leb_le. intros H.
  destruct (N.leb_spec 55296 c); [lia | reflexivity].
Qed.

Lemma quote_units_latin1 s :
  forallb is_latin1 s = true -> forallb is_latin1 (quote_units s) = true.
Proof.
  induction s as [|c r IH]; intros H; [reflexivity|].
  cbn [forallb] in H. apply andb_true_iff in H as [Hc Hr].
  cbn [quote_units]. rewrite (latin1_not_leading c Hc), forallb_app.
  now rewrite (quote_unit_latin1 c Hc), (IH Hr).
Qed.

Lemma QuoteJSONString_latin1 s :
  forallb is_latin1 s = true -> forallb is_latin1 (QuoteJSONString s) = true.
Proof.
  intros H. unfold QuoteJSONString. rewrite !forallb_app.
  now rewrite (quote_units_latin1 s H).
Qed.

Lemma join_latin1 sep parts :
  forallb is_latin1 sep = true ->
  forallb (forallb is_latin1) parts = true ->
  forallb is_latin1 (join sep parts) = true.
Proof.
  intros Hsep. induction parts as [|p rest IH]; intros H; [reflexivity|].
  cbn [forallb] in H. apply andb_true_iff in H as [Hp Hrest].
  destruct rest as [|p' rest']; [exact Hp|].
  change (join sep (p :: p' :: rest')) with (p ++ sep ++ join sep (p' :: rest')).
  rewrite !forallb_app, Hp, Hsep. now rewrite (IH Hrest).
Qed.

Lemma strip_non_alnum_alnum s : forallb is_alnum (strip_non_alnum s) = true.
Proof.
  apply forallb_forall. intros c Hc. unfold strip_non_alnum in Hc.
  now apply filter_In in Hc.
Qed.

Section SafeInputs.

Variable NumberToString : number -> jsstring.
Hypothesis NumberToString_latin1 :
  forall x, forallb is_latin1 (NumberToString x) = true.

Lemma member_latin1 {A : Type} (key : string) (ser : A -> jsstring) (v : option A) :
  forallb is_latin1 (js key) = true ->
  (forall x, v = Some x -> forallb is_latin1 (ser x) = true) ->
  forallb (forallb is_latin1) (member key ser v) = true.
Proof.
  intros Hk Hs. destruct v as [x|]; [|reflexivity].
  cbn [member forallb]. rewrite !forallb_app.
  rewrite (QuoteJSONString_latin1 _ Hk), (Hs x eq_refl). reflexivity.
Qed.

Lemma json_number_latin1 x : forallb is_latin1 (json_number NumberToString x) = true.
Proof.
  unfold json_number. destruct (PrimFloat.is_finite x); [apply NumberToString_latin1|].
  reflexivity.
Qed.

Lemma stringify_point_latin1 p :
  latin1_point p = true ->
  forallb is_latin1 (stringify_point NumberToString p) = true.
Proof.
  unfold latin1_point. rewrite !andb_true_iff. intros [[[Ha Hl] Hg] Ht].
  unfold stringify_point. rewrite !forallb_app.
  rewrite join_latin1; [reflexivity | reflexivity |].
  rewrite !forallb_app.
  repeat (rewrite member_latin1; [| reflexivity |]); try reflexivity.
  - intros x Hx. rewrite Hx in Ht. now apply QuoteJSONString_latin1.
  - intros x Hx. rewrite Hx in Hg. now apply QuoteJSONString_latin1.
  - intros x _. now destruct x.
  - intros x _. now destruct x.
  - intros x Hx. rewrite Hx in Hl. now apply QuoteJSONString_latin1.
  - intros x Hx. rewrite Hx in Ha. now apply QuoteJSONString_latin1.
  - intros x _. apply json_number_latin1.
  - intros x _. apply json_number_latin1.
Qed.

Lemma JSON_stringify_latin1 l :
  forallb latin1_point l = true ->
  forallb is_latin1 (JSON_stringify NumberToString l) = true.
Proof.
  intros H. unfold JSON_stringify. rewrite !forallb_app.
  rewrite join_latin1; [reflexivity | reflexivity |].
  induction l as [|p l IH]; [reflexivity|].
  cbn [forallb] in H. apply andb_true_iff in H as [Hp Hl].
  cbn [map forallb]. now rewrite (stringify_point_latin1 p Hp), (IH Hl).
Qed.

(** X10: when the labels, addresses, geometries and types of all points hold
    only code units up to 0xFF (and numbers are written with such code
    units), the render throws nothing: the identifier is computed, it is
    "leaflet-map-" followed by letters and digits only, and the render
    returns one of the three placeholders or the map element with this
    identifier. *)
Theorem X10_latin1_input_renders (props : MapFromAddressProps) (q : Query.Result) :
  forallb latin1_point (locations props) = true ->
  exists rest,
    forallb is_alnum rest = true
    /\ mapId NumberToString props = Ok (js "leaflet-map-" ++ rest)
    /\ MapFromAddress NumberToString props q
       = Ok (if Query.isLoading q then LoadingMapData
             else if Query.isError q then UnableToLoadMap
             else if length (validCoordinates props q) =? 0 then NoLocationToDisplay
             else MapSurface (js "leaflet-map-" ++ rest) (height_ props)).
Proof.
  intros H.
  exists (strip_non_alnum (b64_encode (JSON_stringify NumberToString (locations props)))).
  split; [apply strip_non_alnum_alnum|].
  assert (Hid : mapId NumberToString props
                = Ok (js "leaflet-map-"
                      ++ strip_non_alnum
                           (b64_encode (JSON_stringify NumberToString (locations props))))).
  { unfold mapId, mapId_of, btoa. now rewrite (JSON_stringify_latin1 _ H). }
  split; [exact Hid|]. now apply MapFromAddress_cases.
Qed.

End SafeInputs.

Lemma X10_witness :
  exists rest,
    forallb is_alnum rest = true
    /\ MapFromAddress (fun _ => js "0") (props_of [lyon_explicit; nice_by_address] None)
                      query_loading
       = Ok LoadingMapData
    /\ mapId (fun _ => js "0") (props_of [lyon_explicit; nice_by_address] None)
       = Ok (js "leaflet-map-" ++ rest).
Proof.
  destruct (X10_latin1_input_renders (fun _ => js "0") (fun _ => eq_refl)
              (props_of [lyon_explicit; nice_by_address] None) query_loading eq_refl)
    as (rest & Ha & Hid & Hr).
  exists rest. split; [exact Ha|]. split; [exact Hr | exact Hid].
Defined.

(** ** The geocoding batch and how its results are matched to the points *)

Lemma findIndex_Some {A : Type} (f : A -> bool) (l : list A) i :
  findIndex f l = Some i -> exists x, nth_error l i = Some x /\ f x = true.
Proof.
  revert i. induction l as [|y l IH]; intros i H; [discriminate|].
  cbn [findIndex] in H. destruct (f y) eqn:Ey.
  - injection H as <-. now exists y.
  - destruct (findIndex f l) as [j|]; [|discriminate].
    injection H as <-. apply (IH j eq_refl).
Qed.

Lemma findIndex_In {A : Type} (f : A -> bool) (l : list A) x :
  In x l -> f x = true -> exists i, findIndex f l = Some i.
Proof.
  induction l as [|y l IH]; intros Hin Hf; [destruct Hin|].
  cbn [findIndex]. destruct (f y) eqn:Ey; [now exists 0|].
  destruct Hin as [-> | Hin]; [congruence|].
  destruct (IH Hin Hf) as [i ->]. now exists (S i).
Qed.

Lemma findIndex_None {A : Type} (f : A -> bool) (l : list A) :
  (forall x, In x l -> f x = false) -> findIndex f l = None.
Proof.
  induction l as [|y l IH]; intros H; [reflexivity|].
  cbn [findIndex]. rewrite (H y (or_introl eq_refl)).
  rewrite IH; [reflexivity|]. intros x Hx. apply H. now right.
Qed.

Lemma Forall2_nth_error_l {A B : Type} (R : A -> B -> Prop) l1 l2 i x :
  Forall2 R l1 l2 -> nth_error l1 i = Some x ->
  exists y, nth_error l2 i = Some y /\ R x y.
Proof.
  intros H. revert i. induction H as [|a b l1 l2 Hab _ IH]; intros i Hi.
  - destruct i; discriminate.
  - destruct i as [|i]; [|now apply IH].
    injection Hi as <-. now exists b.
Qed.

Section GeocodeBatch.

Variable encodeURIComponent : jsstring -> option jsstring.
Variable fetch_json : jsstring -> option (option (list Nominatim.Hit)).
Variable parseFloat : jsstring -> number.

Lemma geocode_loop_resolved todo : forall results final,
  (forall loc, In loc todo -> truthy_ostr (address loc) = true) ->
  geocode_loop encodeURIComponent fetch_json parseFloat todo results = Some final ->
  exists pushed,
    final = results ++ pushed
    /\ Forall2 (looked_up encodeURIComponent fetch_json parseFloat) todo pushed.
Proof.
  induction todo as [|loc todo IH]; intros results final Ht H.
  - cbn in H. injection H as <-. exists []. split; [now rewrite app_nil_r | constructor].
  - cbn [geocode_loop] in H. rewrite (Ht loc (or_introl eq_refl)) in H.
    cbn [negb] in H.
    pose proof (Ht loc (or_introl eq_refl)) as Hloc.
    destruct (address loc) as [a|] eqn:Ea; [|discriminate].
    destruct (geocode_one encodeURIComponent fetch_json parseFloat a) as [r|] eqn:Er; [|discriminate].
    destruct (IH (results ++ [r]) final) as (pushed & -> & HF);
      [intros x Hx; apply Ht; now right | exact H |].
    exists (r :: pushed). split; [now rewrite <- app_assoc|].
    constructor; [|exact HF]. exists a. now split.
Qed.

Lemma geocode_loop_rejected todo : forall results,
  (forall loc, In loc todo -> truthy_ostr (address loc) = true) ->
  (geocode_loop encodeURIComponent fetch_json parseFloat todo results = None <->
   exists loc a,
     In loc todo /\ address loc = Some a
     /\ geocode_one encodeURIComponent fetch_json parseFloat a = None).
Proof.
  induction todo as [|loc todo IH]; intros results Ht.
  - cbn. split; [discriminate | intros (loc & a & [] & _)].
  - cbn [geocode_loop]. rewrite (Ht loc (or_introl eq_refl)). cbn [negb].
    pose proof (Ht loc (or_introl eq_refl)) as Hloc.
    destruct (address loc) as [a|] eqn:Ea; [|discriminate].
    destruct (geocode_one encodeURIComponent fetch_json parseFloat a) as [r|] eqn:Er.
    + rewrite IH by (intros x Hx; apply Ht; now right). split.
      * intros (l' & a' & Hin & Ha & Hn). exists l', a'. split; [now right | now split].
      * intros (l' & a' & [<- | Hin] & Ha & Hn).
        -- rewrite Ea in Ha. injection Ha as <-. congruence.
        -- exists l', a'. now repeat split.
    + split; [|reflexivity]. intros _. exists loc, a. split; [now left | now split].
Qed.

Lemma locationsToGeocode_truthy props loc :
  In loc (locationsToGeocode props) -> truthy_ostr (address loc) = true.
Proof. intros H. now apply In_locationsToGeocode in H. Qed.

(** X11: when the geocoding batch resolves, it holds one result per point
    of the lookup set, and a render that is given these results resolves
    every point that has a non-empty address and neither [lat] nor [lon] to
    the result of looking up that point's own address: [null] stays
    unresolved, a hit gives the parsed coordinates of the first entry. *)
Theorem X11_batch_results_match_the_points
    (props : MapFromAddressProps) (results : list (option Geo.LatLon)) :
  geocodeQuery_queryFn encodeURIComponent fetch_json parseFloat props = Some results ->
  length results = length (locationsToGeocode props)
  /\ forall q p a,
       Query.data q = Some results ->
       In p (locations props) -> lat p = None -> lon p = None ->
       address p = Some a -> a <> [] ->
       exists r, geocode_one encodeURIComponent fetch_json parseFloat a = Some r
                 /\ coordinates (processLocation props q p) = r.
Proof.
  intros Hq. unfold geocodeQuery_queryFn in Hq.
  destruct (geocode_loop_resolved (locationsToGeocode props) [] results
              (locationsToGeocode_truthy props) Hq) as (pushed & -> & HF).
  cbn [app] in *. split; [symmetry; now apply (Forall2_length HF)|].
  intros q p a Hdata Hin Hla Hlo Ha Hne.
  assert (Hg : In p (locationsToGeocode props)).
  { apply In_locationsToGeocode. repeat split; try assumption.
    rewrite Ha. now destruct a. }
  destruct (findIndex_In (fun loc => ostr_eqb (address loc) (address p))
              (locationsToGeocode props) p Hg) as [i Hi];
    [now apply ostr_eqb_eq|].
  destruct (findIndex_Some _ _ i Hi) as (loc & Hnth & Heq).
  apply ostr_eqb_eq in Heq.
  destruct (Forall2_nth_error_l (looked_up encodeURIComponent fetch_json parseFloat) _ _ i loc HF Hnth) as (r & Hr & a' & Ha' & Hone).
  rewrite Heq, Ha in Ha'. injection Ha' as <-.
  exists r. split; [exact Hone|].
  unfold processLocation. rewrite Hla, Hi, Hdata, Hr. reflexivity.
Qed.

(** X12: the geocoding batch is rejected as a whole exactly when, for the
    address of some point of the lookup set, [encodeURIComponent] throws or
    the request fails; an empty answer rejects nothing. *)
Theorem X12_batch_rejected_iff_a_lookup_fails :
  forall props,
    geocodeQuery_queryFn encodeURIComponent fetch_json parseFloat props = None <->
    exists loc a, In loc (locationsToGeocode props)
                  /\ address loc = Some a /\ geocode_one encodeURIComponent fetch_json parseFloat a = None.
Proof.
  intros props. unfold geocodeQuery_queryFn.
  apply geocode_loop_rejected, locationsToGeocode_truthy.
Qed.

End GeocodeBatch.

Lemma X11_witness :
  exists r,
    geocode_one (fun s => Some s) (fun _ => Some (Some [nice_hit])) ToNumber_digits
                (js "Nice") = Some r
    /\ coordinates (processLocation (props_of [lyon_explicit; nice_by_address] None)
                      (query_found [Some {| Geo.lat := 43%float; Geo.lon := 7%float |}])
                      nice_by_address) = r.
Proof.
  destruct (X11_batch_results_match_the_points
              (fun s => Some s) (fun _ => Some (Some [nice_hit])) ToNumber_digits
              (props_of [lyon_explicit; nice_by_address] None)
              [Some {| Geo.lat := 43%float; Geo.lon := 7%float |}] eq_refl) as [_ H].
  apply H; try reflexivity.
  - right. left. reflexivity.
  - discriminate.
Defined.

(** ** Points with one coordinate only, and the effect while a placeholder
       is shown *)

Section EdgeCases.

Variable ToNumber : jsstring -> number.
Variable toFixed : number -> nat -> jsstring.
Variable L_polygon : list (option number * option number) -> option LeafletError.

(** X13: a point with exactly one of [lat] and [lon] is neither taken as it
    is nor put in the geocoding lookup set; unless a point of the lookup
    set has the same address, it gets no coordinates whatever the
    geocoding query holds, and so no marker. *)
Theorem X13_point_with_one_coordinate_is_dropped
    (props : MapFromAddressProps) (theme : jsstring) (p : LocationPoint) :
  is_undefined (lat p) <> is_undefined (lon p) ->
  ~ In p (locationsToGeocode props)
  /\ ((forall loc, In loc (locationsToGeocode props) -> address loc <> address p) ->
      forall q,
        coordinates (processLocation props q p) = None
        /\ marker_of toFixed theme (processLocation props q p) = []).
Proof.
  intros Hone. split.
  - intros Hin. apply In_locationsToGeocode in Hin as (_ & Hla & Hlo & _).
    rewrite Hla, Hlo in Hone. now apply Hone.
  - intros Haddr q.
    assert (Hc : coordinates (processLocation props q p) = None).
    { unfold processLocation.
      rewrite (findIndex_None (fun loc => ostr_eqb (address loc) (address p))).
      - destruct (lat p), (lon p); try reflexivity. now contradiction Hone.
      - intros loc Hloc. destruct (ostr_eqb (address loc) (address p)) eqn:E;
          [|reflexivity].
        apply ostr_eqb_eq in E. now destruct (Haddr loc Hloc). }
    split; [exact Hc|]. unfold marker_of. now rewrite Hc.
Qed.

End EdgeCases.

Lemma X13_witness :
  coordinates (processLocation (props_of [point (Some 45.75%float) None
                                             (Some (js "Lyon")) None;
                                           nice_by_address] None)
                 (query_found [Some {| Geo.lat := 43%float; Geo.lon := 7%float |}])
                 (point (Some 45.75%float) None (Some (js "Lyon")) None))
  = None.
Proof.
  destruct (X13_point_with_one_coordinate_is_dropped
              (fun _ _ => [])
              (props_of [point (Some 45.75%float) None (Some (js "Lyon")) None;
                         nice_by_address] None)
              (js "dark")
              (point (Some 45.75%float) None (Some (js "Lyon")) None)) as [_ H].
  - discriminate.
  - apply H. intros loc [<- | []]. discriminate.
Defined.

Lemma X6_witness :
  exists l wkt,
    In l (processedLocations (props_of [lyon_explicit; depot_point] None) query_idle)
    /\ geometry (location l) = Some wkt
    /\ coordPairs ToNumber_digits wkt = Some (ring depot_polygon).
Proof.
  destruct (X6_polygons_come_from_buildings ToNumber_digits (fun _ => None)
              (props_of [lyon_explicit; depot_point] None) (js "dark") query_idle
              depot_polygon ltac:(vm_compute; left; reflexivity))
    as (l & wkt & Hl & _ & Hg & _ & Hp & _).
  exists l, wkt. split; [exact Hl|]. split; [exact Hg | exact Hp].
Defined.

(** ** When the map element is returned, and points that share an address *)

(** X15: the render returns the map element exactly when the identifier is
    computed, the geocoding query is neither loading nor failed and at
    least one coordinate is resolved; the element then carries that
    identifier and the height of the props, '400px' by default. *)
Theorem X15_map_element_returned_iff :
  forall NumberToString props q id h,
    MapFromAddress NumberToString props q = Ok (MapSurface id h) <->
    mapId NumberToString props = Ok id
    /\ h = match height props with Some x => x | None => js "400px" end
    /\ Query.isLoading q = false /\ Query.isError q = false
    /\ validCoordinates props q <> [].
Proof.
  intros N2S props q id h. unfold MapFromAddress. split.
  - destruct (mapId N2S props) as [id'|e]; [|discriminate].
    destruct (Query.isLoading q); [discriminate|].
    destruct (Query.isError q); [discriminate|].
    destruct (validCoordinates props q); [discriminate|].
    cbn [length Nat.eqb]. intros H. injection H as <- <-.
    repeat split. discriminate.
  - intros (-> & -> & -> & -> & Hv).
    destruct (validCoordinates props q); [contradiction | reflexivity].
Qed.

(** X16: results are matched to points by address: two points that both
    lack an explicit pair of coordinates and have the same address are
    resolved alike, whatever the geocoding query holds. *)
Theorem X16_same_address_same_coordinates
    (props : MapFromAddressProps) (q : Query.Result) (p1 p2 : LocationPoint) :
  explicit_coordinates p1 = None -> explicit_coordinates p2 = None ->
  address p1 = address p2 ->
  coordinates (processLocation props q p1) = coordinates (processLocation props q p2).
Proof.
  unfold explicit_coordinates, processLocation. intros H1 H2 Ha. rewrite Ha.
  destruct (lat p1), (lon p1); try discriminate;
    destruct (lat p2), (lon p2); try discriminate;
    destruct (findIndex _ (locationsToGeocode props)), (Query.data q); reflexivity.
Qed.

Lemma X16_witness :
  coordinates (processLocation (props_of [nice_by_address] None)
                 (query_found [Some {| Geo.lat := 43%float; Geo.lon := 7%float |}])
                 (point (Some 1%float) None (Some (js "Nice")) None))
  = coordinates (processLocation (props_of [nice_by_address] None)
                   (query_found [Some {| Geo.lat := 43%float; Geo.lon := 7%float |}])
                   nice_by_address).
Proof.
  exact (X16_same_address_same_coordinates (props_of [nice_by_address] None)
           (query_found [Some {| Geo.lat := 43%float; Geo.lon := 7%float |}])
           (point (Some 1%float) None (Some (js "Nice")) None) nice_by_address
           eq_refl eq_refl eq_refl).
Defined.

(** ** One mount of the component *)

Lemma stringify_point_address NumberToString p s c :
  address p = Some s -> is_wide c = true -> In c s ->
  In c (stringify_point NumberToString p).
Proof.
  intros Ha Hw Hc. unfold stringify_point. rewrite in_app_iff. right.
  rewrite in_app_iff. left.
  apply (join_In _ _ (QuoteJSONString (js "address") ++ js ":" ++ QuoteJSONString s)).
  - rewrite Ha. cbn [member]. rewrite !in_app_iff. right. right. left. now left.
  - rewrite !in_app_iff. right. right. now apply QuoteJSONString_wide.
Qed.

Lemma MapFromAddress_throws_on_wide_address NumberToString props q p s c :
  In p (locations props) -> address p = Some s -> In c s -> is_wide c = true ->
  MapFromAddress NumberToString props q = Throw InvalidCharacterError.
Proof.
  intros Hp Ha Hc Hw. apply MapFromAddress_throws. unfold mapId, mapId_of.
  rewrite (btoa_throws (JSON_stringify NumberToString (locations props)) c).
  - reflexivity.
  - apply (JSON_stringify_In _ _ p); [exact Hp|].
    now apply (stringify_point_address NumberToString p s).
  - unfold is_wide in Hw. rewrite !andb_true_iff, !negb_true_iff in Hw. tauto.
Qed.

Lemma or_number_not_nan a : PrimFloat.is_nan (or_number a 0%float) = false.
Proof.
  unfold or_number. destruct a as [x|]; [|reflexivity].
  destruct (truthy_num x) eqn:E; [|reflexivity].
  unfold truthy_num in E. apply negb_true_iff, orb_false_iff in E. tauto.
Qed.

Lemma node_coordinates_valid node :
  valid_LatLng (position_of (node_coordinates node)) = true.
Proof.
  unfold valid_LatLng, position_of, node_coordinates. cbn [fst snd Geo.lat Geo.lon].
  now rewrite !or_number_not_nan.
Qed.

Section MountLemmas.

Variable ToNumber : jsstring -> number.
Variable toFixed : number -> nat -> jsstring.
Variable L_polygon : list (option number * option number) -> option LeafletError.

Lemma marker_of_length theme l :
  length (marker_of toFixed theme l)
  = match coordinates l with Some _ => 1 | None => 0 end.
Proof.
  rewrite <- (length_map position), marker_of_position. now destruct (coordinates l).
Qed.

(** The marker loop ends without a throw exactly when no resolved
    coordinate holds a NaN; it has then added the markers of all
    locations, and otherwise fewer markers than there are coordinates. *)
Lemma markers_until_throw_spec theme ls :
  let coords := flat_map (fun l => match coordinates l with
                                   | Some c => [c]
                                   | None => []
                                   end) ls in
  (forallb valid_LatLng (map position_of coords) = true
   /\ markers_until_throw toFixed theme ls = (flat_map (marker_of toFixed theme) ls, false))
  \/ (forallb valid_LatLng (map position_of coords) = false
      /\ exists ms, markers_until_throw toFixed theme ls = (ms, true)
                    /\ length ms < length coords).
Proof.
  cbv zeta. induction ls as [|l ls IH]; [left; now split|].
  cbn [flat_map markers_until_throw].
  pose proof (marker_of_length theme l) as Hlen.
  destruct (coordinates l) as [c|] eqn:Ec.
  - cbn [app map forallb].
    destruct (valid_LatLng (position_of c)) eqn:Ev.
    + destruct IH as [(Hall & Hm) | (Hall & ms & Hm & Hlt)].
      * left. rewrite Hall, Hm. now split.
      * right. rewrite Hall, Hm. split; [reflexivity|].
        eexists. split; [reflexivity|].
        rewrite length_app, Hlen. cbn [length]. lia.
    + right. split; [reflexivity|]. exists []. split; [reflexivity|].
      cbn [length]. lia.
  - assert (Hnil : marker_of toFixed theme l = [])
      by (unfold marker_of; now rewrite Ec).
    rewrite Hnil. exact IH.
Qed.

Lemma run_effect_skipped props theme q element :
  validCoordinates props q = [] ->
  run_effect ToNumber toFixed L_polygon props theme q element = EffectSkipped.
Proof. intros H. unfold run_effect. now rewrite H. Qed.

Lemma run_effect_no_container props theme q element :
  validCoordinates props q <> [] ->
  (forall id h, element <> MapSurface id h) ->
  run_effect ToNumber toFixed L_polygon props theme q element
  = EffectThrows MapContainerNotFound None.
Proof.
  intros Hv He. unfold run_effect.
  destruct (validCoordinates props q); [contradiction|].
  destruct element; try reflexivity. now destruct (He id minHeight).
Qed.

(** On the map element, with every resolved coordinate free of NaN: the
    loop adds all markers, and the effect ends with the widget of [effect]
    unless the route holds a NaN, which throws after markers and polygons. *)
Lemma run_effect_on_element props theme q id h :
  validCoordinates props q <> [] ->
  forallb valid_LatLng (map position_of (validCoordinates props q)) = true ->
  exists w,
    widget_of (run_effect ToNumber toFixed L_polygon props theme q (MapSurface id h))
    = Some w
    /\ container w = id
    /\ markers w = flat_map (marker_of toFixed theme) (processedLocations props q)
    /\ (match route_polyline toFixed props theme with
        | Some pl => forallb valid_LatLng (path pl)
        | None => true
        end = true ->
        run_effect ToNumber toFixed L_polygon props theme q (MapSurface id h)
        = EffectDone w
        /\ effect ToNumber toFixed L_polygon props theme q id = Some w).
Proof.
  intros Hne Hall. unfold run_effect, effect.
  destruct (validCoordinates props q) as [|c0 vs] eqn:Ev; [contradiction|].
  destruct (markers_until_throw_spec theme (processedLocations props q))
    as [(_ & Hm) | (Hbad & _)].
  2:{ unfold validCoordinates in Ev. rewrite Ev in Hbad. congruence. }
  rewrite Hm.
  destruct (match route_polyline toFixed props theme with
            | Some pl => forallb valid_LatLng (path pl)
            | None => true
            end) eqn:El.
  - eexists. split; [reflexivity|]. split; [reflexivity|]. split; [reflexivity|].
    intros _. split; reflexivity.
  - eexists. split; [reflexivity|]. split; [reflexivity|]. split; [reflexivity|].
    discriminate.
Qed.

(** What a completed effect says of the mount. *)
Lemma run_effect_done props theme q element w :
  run_effect ToNumber toFixed L_polygon props theme q element = EffectDone w ->
  exists id h,
    element = MapSurface id h
    /\ effect ToNumber toFixed L_polygon props theme q id = Some w
    /\ forallb valid_LatLng (map position_of (validCoordinates props q)) = true
    /\ match polyline w with
       | Some pl => forallb valid_LatLng (path pl) = true
       | None => True
       end.
Proof.
  unfold run_effect, effect. intros H.
  destruct (validCoordinates props q) as [|c0 vs] eqn:Ev; [discriminate|].
  destruct element as [ | | | id h]; try discriminate.
  exists id, h. split; [reflexivity|].
  destruct (markers_until_throw_spec theme (processedLocations props q))
    as [(Hall & Hm) | (_ & ms & Hm & _)]; rewrite Hm in H; [|discriminate].
  destruct (match route_polyline toFixed props theme with
            | Some pl => forallb valid_LatLng (path pl)
            | None => true
            end) eqn:El; [|discriminate].
  injection H as <-. split; [reflexivity|]. split.
  - unfold validCoordinates in Ev. now rewrite Ev in Hall.
  - cbn [polyline]. now destruct (route_polyline toFixed props theme).
Qed.

End MountLemmas.




Section MountProperties.

Variable NumberToString : number -> jsstring.
Variable ToNumber : jsstring -> number.
Variable toFixed : number -> nat -> jsstring.
Variable L_polygon : list (option number * option number) -> option LeafletError.

(** C3 (amended): with no resolvable coordinate and an identifier that
    could be computed, the render returns, whatever route is supplied, the
    "Loading map data" placeholder while the geocoding query is in
    progress, otherwise the "Unable to load map" placeholder when it has
    failed, and otherwise the "No location to display" placeholder; in all
    three cases the effect returns at once and builds no map. *)
Theorem C3_placeholders_without_coordinates
    (props : MapFromAddressProps) (theme : jsstring) (q : Query.Result)
    (id : jsstring) :
  validCoordinates props q = [] ->
  mapId NumberToString props = Ok id ->
  MapFromAddress NumberToString props q
  = Ok (if Query.isLoading q then LoadingMapData
        else if Query.isError q then UnableToLoadMap
        else NoLocationToDisplay)
  /\ MapFromAddress_mount NumberToString ToNumber toFixed L_polygon props theme q
     = Committed (if Query.isLoading q then LoadingMapData
                  else if Query.isError q then UnableToLoadMap
                  else NoLocationToDisplay)
                 EffectSkipped
  /\ effect ToNumber toFixed L_polygon props theme q id = None.
Proof.
  intros Hv Hid.
  assert (Hr : MapFromAddress NumberToString props q
               = Ok (if Query.isLoading q then LoadingMapData
                     else if Query.isError q then UnableToLoadMap
                     else NoLocationToDisplay)).
  { rewrite (MapFromAddress_cases NumberToString props q id Hid), Hv. reflexivity. }
  split; [exact Hr|]. split.
  - unfold MapFromAddress_mount. rewrite Hr. f_equal. now apply run_effect_skipped.
  - unfold effect. now rewrite Hv.
Qed.

(** C10 (amended): every point the panel derives has a numeric [lat] and
    [lon], the number [0] standing for a coordinate the node lacks. Hence,
    for a renderer fed by the panel, the geocoding lookup set is empty,
    nothing is looked up and the geocoding query is disabled; a displayed
    node without latitude and longitude is resolved to (0, 0) whatever the
    geocoding query holds; and whenever the render returns the map element,
    the effect creates the map on that element and adds a marker for this
    node at (0, 0). *)
Theorem C10_panel_points_have_coordinates_nothing_geocoded
    (nodes sel : list Graph.GraphNode) (props : MapFromAddressProps)
    (theme : jsstring) (q : Query.Result) :
  locations props = locationNodes nodes sel ->
  (forall p, In p (locations props) ->
     exists x y, lat p = Some x /\ lon p = Some y)
  /\ (forall node,
        (Graph.latitude (Graph.nodeProperties node) = None ->
         lat (toLocationPoint sel node) = Some 0%float)
        /\ (Graph.longitude (Graph.nodeProperties node) = None ->
            lon (toLocationPoint sel node) = Some 0%float))
  /\ locationsToGeocode props = []
  /\ geocodeQuery_lookups props = []
  /\ geocodeQuery_enabled props = false
  /\ (forall node, In node nodes -> isLocationNode node = true ->
        Graph.latitude (Graph.nodeProperties node) = None ->
        Graph.longitude (Graph.nodeProperties node) = None ->
        In (toLocationPoint sel node) (locations props)
        /\ coordinates (processLocation props q (toLocationPoint sel node))
           = Some {| Geo.lat := 0%float; Geo.lon := 0%float |}
        /\ forall id h,
             MapFromAddress NumberToString props q = Ok (MapSurface id h) ->
             exists w m,
               MapFromAddress_mount NumberToString ToNumber toFixed L_polygon
                                    props theme q
               = Committed (MapSurface id h)
                           (run_effect ToNumber toFixed L_polygon props theme q
                                       (MapSurface id h))
               /\ widget_of (run_effect ToNumber toFixed L_polygon props theme q
                                        (MapSurface id h)) = Some w
               /\ container w = id
               /\ In m (markers w)
               /\ position m = (0%float, 0%float)).
Proof.
  intros Hl.
  pose proof (locationsToGeocode_panel nodes sel props Hl) as Hg.
  split; [|split; [|split; [|split; [|split]]]].
  - intros p Hp. rewrite Hl in Hp. apply In_locationNodes in Hp as (node & _ & _ & ->).
    eexists. eexists. split; reflexivity.
  - intros node. split; intros H.
    + rewrite toLocationPoint_lat, H. reflexivity.
    + rewrite toLocationPoint_lon, H. reflexivity.
  - exact Hg.
  - unfold geocodeQuery_lookups. now rewrite Hg.
  - unfold geocodeQuery_enabled. now rewrite Hg.
  - intros node Hin Hf Hla Hlo.
    assert (Hp : In (toLocationPoint sel node) (locations props)).
    { rewrite Hl. apply In_locationNodes. now exists node. }
    assert (Hc : coordinates (processLocation props q (toLocationPoint sel node))
                 = Some {| Geo.lat := 0%float; Geo.lon := 0%float |}).
    { rewrite (processLocation_explicit props q _ 0%float 0%float).
      - reflexivity.
      - rewrite toLocationPoint_lat, Hla. reflexivity.
      - rewrite toLocationPoint_lon, Hlo. reflexivity. }
    split; [exact Hp|]. split; [exact Hc|].
    intros id h Hr.
    assert (Hv : In {| Geo.lat := 0%float; Geo.lon := 0%float |} (validCoordinates props q)).
    { apply In_validCoordinates. eexists. split; [exact Hp | exact Hc]. }
    assert (Hvc : validCoordinates props q
                  = map node_coordinates (filter isLocationNode nodes)).
    { unfold validCoordinates, processedLocations. rewrite Hl. unfold locationNodes.
      apply panel_points_resolved. }
    assert (Hall : forallb valid_LatLng (map position_of (validCoordinates props q)) = true).
    { rewrite Hvc. apply forallb_forall. intros c Hcin.
      apply in_map_iff in Hcin as (c' & <- & Hc').
      apply in_map_iff in Hc' as (n & <- & _). apply node_coordinates_valid. }
    destruct (run_effect_on_element ToNumber toFixed L_polygon props theme q id h)
      as (w & Hw & Hcont & Hms & _);
      [intros E; rewrite E in Hv; destruct Hv | exact Hall |].
    set (l := processLocation props q (toLocationPoint sel node)).
    assert (Hm : exists m, marker_of toFixed theme l = [m]
                           /\ position m = (0%float, 0%float)).
    { pose proof (marker_of_position toFixed theme l) as Hpos.
      pose proof (marker_of_length toFixed theme l) as Hlen.
      fold l in Hc. rewrite Hc in Hpos, Hlen.
      destruct (marker_of toFixed theme l) as [|m [|m' ms]]; try discriminate.
      exists m. split; [reflexivity|]. cbn [map Geo.lat Geo.lon] in Hpos.
      now injection Hpos. }
    destruct Hm as (m & Hm & Hpos).
    exists w, m. split; [unfold MapFromAddress_mount; now rewrite Hr|].
    split; [exact Hw|]. split; [exact Hcont|]. split; [|exact Hpos].
    rewrite Hms. apply in_flat_map. exists l. split.
    + unfold processedLocations. apply in_map_iff. now exists (toLocationPoint sel node).
    + rewrite Hm. now left.
Qed.

(** X1: whenever the effect runs to its end, the view call it made last is
    not the fit to the route: it is the centring on the first resolved
    point (when centring is asked for, or there is one point) or the fit to
    the markers. *)
Theorem X1_last_view_call_is_never_the_route_fit
    (props : MapFromAddressProps) (theme : jsstring) (q : Query.Result)
    (element : Rendered) (w : MapWidget) :
  run_effect ToNumber toFixed L_polygon props theme q element = EffectDone w ->
  exists v first rest,
    final_view w = Some v /\ is_route_fit v = false
    /\ validCoordinates props q = first :: rest
    /\ v = (if centerOnFirst_ props then setView (position_of first) (zoom_ props)
            else match rest with
                 | [] => setView (position_of first) (zoom_ props)
                 | _ :: _ => fitBounds (MarkerBounds (markers w)) pad_margin
                 end).
Proof.
  intros H.
  destruct (run_effect_done ToNumber toFixed L_polygon props theme q element w H)
    as (id & h & _ & He & _).
  unfold effect in He.
  destruct (validCoordinates props q) as [|first rest] eqn:Ev; [discriminate|].
  destruct (view_calls_end toFixed props theme q
              (flat_map (marker_of toFixed theme) (processedLocations props q))
              first rest Ev) as (front & v & Hvc & Hnf & Hc1 & Hc2 & Hc3).
  injection He as <-. exists v, first, rest.
  split; [|split; [exact Hnf|split; [reflexivity|]]].
  - unfold final_view. cbn [viewCalls]. rewrite Hvc, map_app. cbn [map].
    apply last_app_one.
  - cbn [markers]. unfold position_of.
    destruct (centerOnFirst_ props); [now apply Hc1|].
    destruct rest; [now apply Hc3 | apply Hc2; [reflexivity | discriminate]].
Qed.

(** X3: on the map element, a resolved coordinate that holds a NaN makes
    the effect throw Leaflet's "Invalid LatLng object" out of the marker
    loop: the map is left with fewer markers than resolved coordinates, no
    polygon, no route and no view. *)
Theorem X3_nan_coordinate_throws_in_the_marker_loop
    (props : MapFromAddressProps) (theme : jsstring) (q : Query.Result)
    (id h : jsstring) (c : Geo.LatLon) :
  In c (validCoordinates props q) ->
  valid_LatLng (position_of c) = false ->
  exists built,
    run_effect ToNumber toFixed L_polygon props theme q (MapSurface id h)
    = EffectThrows InvalidLatLngObject (Some built)
    /\ container built = id
    /\ length (markers built) < length (validCoordinates props q)
    /\ polygons built = [] /\ polyline built = None /\ viewCalls built = [].
Proof.
  intros Hin Hbad. unfold run_effect.
  destruct (validCoordinates props q) as [|c0 vs] eqn:Ev; [destruct Hin|].
  destruct (markers_until_throw_spec toFixed theme (processedLocations props q))
    as [(Hall & _) | (_ & ms & Hm & Hlt)].
  - unfold validCoordinates in Ev. rewrite Ev in Hall.
    rewrite forallb_forall in Hall.
    rewrite (Hall (position_of c)) in Hbad; [discriminate|].
    apply in_map. exact Hin.
  - rewrite Hm. eexists. split; [reflexivity|]. cbn.
    unfold validCoordinates in Ev. rewrite Ev in Hlt. cbn in Hlt.
    repeat split. exact Hlt.
Qed.

(** X5: when the effect runs to its end, the widget is on the element the
    render returned and has one marker per resolved coordinate and none for
    a location without coordinates: the positions of its markers are the
    resolved coordinates, in the order of the input, none of them with a
    NaN. *)
Theorem X5_one_marker_per_resolved_coordinate
    (props : MapFromAddressProps) (theme : jsstring) (q : Query.Result)
    (element : Rendered) (w : MapWidget) :
  run_effect ToNumber toFixed L_polygon props theme q element = EffectDone w ->
  (exists h, element = MapSurface (container w) h)
  /\ map position (markers w) = map position_of (validCoordinates props q)
  /\ length (markers w) = length (validCoordinates props q)
  /\ forallb valid_LatLng (map position (markers w)) = true.
Proof.
  intros H.
  destruct (run_effect_done ToNumber toFixed L_polygon props theme q element w H)
    as (id & h & -> & He & Hall & _).
  destruct (effect_marker_positions ToNumber toFixed L_polygon props theme q id w He)
    as [Hpos Hc].
  split; [exists h; now rewrite Hc|].
  split; [exact Hpos|]. split.
  - rewrite <- (length_map position), Hpos, length_map. reflexivity.
  - now rewrite Hpos.
Qed.

(** X14: the effect's guard (line 113) looks at the resolved coordinates
    only. While the geocoding query is loading or has failed, a render
    whose input has a point with explicit coordinates returns a placeholder,
    so the element with the identifier is not in the document, and the
    effect of that mount throws "Map container not found" at [L.map], before
    any widget exists. *)
Theorem X14_effect_throws_behind_placeholder
    (props : MapFromAddressProps) (theme : jsstring) (q : Query.Result)
    (id : jsstring) (p : LocationPoint) (la lo : number) :
  mapId NumberToString props = Ok id ->
  Query.isLoading q = true \/ Query.isError q = true ->
  In p (locations props) -> lat p = Some la -> lon p = Some lo ->
  MapFromAddress_mount NumberToString ToNumber toFixed L_polygon props theme q
  = Committed (if Query.isLoading q then LoadingMapData else UnableToLoadMap)
              (EffectThrows MapContainerNotFound None).
Proof.
  intros Hid Hq Hin Hla Hlo.
  assert (Hv : validCoordinates props q <> []).
  { intros E.
    assert (Hc : In {| Geo.lat := la; Geo.lon := lo |} (validCoordinates props q)).
    { apply In_validCoordinates. exists p. split; [exact Hin|].
      now rewrite (processLocation_explicit props q p la lo Hla Hlo). }
    rewrite E in Hc. destruct Hc. }
  unfold MapFromAddress_mount.
  rewrite (MapFromAddress_cases NumberToString props q id Hid).
  destruct (Query.isLoading q).
  - f_equal. apply run_effect_no_container; [exact Hv | discriminate].
  - destruct Hq as [Hq | Hq]; [discriminate|]. rewrite Hq.
    f_equal. apply run_effect_no_container; [exact Hv | discriminate].
Qed.


(** X4: on the map the panel renders, whenever the effect runs to its end,
    the widget's polyline is the route the server found: there is a
    polyline exactly when the route query holds a successful answer with at
    least two points; it follows those points, none of which holds a NaN,
    is drawn in "#3b82f6", and its popup gives the distance in kilometres
    with two decimals when the answer has a distance other than 0 and NaN.
    The view left on the map is nevertheless the centring on the first
    displayed node. *)
Theorem X4_panel_route_polyline
    (st : PanelState) (rq : RouteQuery.Result) (theme : jsstring)
    (q : Query.Result) (element : Rendered) (w : MapWidget) :
  run_effect ToNumber toFixed L_polygon (mapProps (MapPanel st rq)) theme q element
  = EffectDone w ->
  match polyline w with
  | Some pl =>
      exists d,
        RouteQuery.data rq = Some d /\ RouteQuery.success d = true
        /\ 2 <= length (RouteQuery.route d)
        /\ path pl = RouteQuery.route d
        /\ forallb valid_LatLng (RouteQuery.route d) = true
        /\ lineColor pl = js "#3b82f6"
        /\ linePopup pl
           = match RouteQuery.distance_m d with
             | Some m => if truthy_num m
                         then Some (js "Route: " ++ toFixed (m / 1000)%float 2 ++ js " km")
                         else None
             | None => None
             end
  | None =>
      forall d, RouteQuery.data rq = Some d ->
                RouteQuery.success d = false \/ length (RouteQuery.route d) < 2
  end
  /\ exists first rest,
       filter isLocationNode (nodes st) = first :: rest
       /\ final_view w
          = Some (setView (position_of (node_coordinates first)) 15%float).
Proof.
  intros H.
  destruct (run_effect_done ToNumber toFixed L_polygon _ theme q element w H)
    as (id & h & _ & He & _ & Hvalid).
  pose proof (panel_route_polyline toFixed st rq theme) as Hp.
  pose proof (panel_validCoordinates st rq q) as Hv.
  assert (Hcf : centerOnFirst_ (mapProps (MapPanel st rq)) = true) by reflexivity.
  assert (Hz : zoom_ (mapProps (MapPanel st rq)) = 15%float) by reflexivity.
  revert He Hp Hv Hcf Hz.
  generalize (mapProps (MapPanel st rq)). intros props He Hp Hv Hcf Hz.
  unfold effect in He.
  destruct (filter isLocationNode (nodes st)) as [|first rest] eqn:Ef;
    cbn [map] in Hv; rewrite Hv in He; [discriminate|].
  destruct (view_calls_end toFixed props theme q
              (flat_map (marker_of toFixed theme) (processedLocations props q))
              _ _ Hv) as (front & v & Hvc & _ & Hc1 & _).
  injection He as <-. cbn [polyline] in *. split.
  - destruct (route_polyline toFixed props theme) as [pl|]; [|exact Hp].
    destruct Hp as (d & Hd & Hs & Hlen & Hpath & Hcol & Hpop).
    exists d. repeat split; try assumption. now rewrite <- Hpath.
  - exists first, rest. split; [reflexivity|].
    unfold final_view. cbn [viewCalls]. rewrite Hvc, map_app. cbn [map].
    rewrite last_app_one, (Hc1 Hcf), Hz. reflexivity.
Qed.

End MountProperties.

Lemma C3_witness :
  MapFromAddress_mount NumberToString_upto_999 ToNumber_digits toFixed_whole
                       (fun _ => None) (props_of [nice_by_address] (Some short_route))
                       (js "dark") (query_found [None])
  = Committed NoLocationToDisplay EffectSkipped.
Proof.
  destruct (mapId NumberToString_upto_999 (props_of [nice_by_address] (Some short_route)))
    as [id|e] eqn:E; [|vm_compute in E; discriminate].
  exact (proj1 (proj2 (C3_placeholders_without_coordinates
                         NumberToString_upto_999 ToNumber_digits toFixed_whole
                         (fun _ => None) (props_of [nice_by_address] (Some short_route))
                         (js "dark") (query_found [None]) id eq_refl E))).
Defined.

Lemma C10_witness :
  isLocationNode somewhere = true
  /\ Graph.latitude (Graph.nodeProperties somewhere) = None
  /\ Graph.longitude (Graph.nodeProperties somewhere) = None
  /\ exists id h w m,
       MapFromAddress_mount NumberToString_upto_999 ToNumber_digits toFixed_whole
                            (fun _ => None) (mapProps (MapPanel harbour_panel no_route))
                            (js "dark") query_idle
       = Committed (MapSurface id h)
           (run_effect ToNumber_digits toFixed_whole (fun _ => None)
                       (mapProps (MapPanel harbour_panel no_route))
                       (js "dark") query_idle (MapSurface id h))
       /\ widget_of (run_effect ToNumber_digits toFixed_whole (fun _ => None)
                                (mapProps (MapPanel harbour_panel no_route))
                                (js "dark") query_idle (MapSurface id h)) = Some w
       /\ container w = id
       /\ In m (markers w)
       /\ position m = (0%float, 0%float).
Proof.
  split; [reflexivity|]. split; [reflexivity|]. split; [reflexivity|].
  assert (Er : exists id h,
             MapFromAddress NumberToString_upto_999
                            (mapProps (MapPanel harbour_panel no_route)) query_idle
             = Ok (MapSurface id h)) by (vm_compute; eauto).
  destruct Er as (id & h & Er). exists id, h.
  destruct (C10_panel_points_have_coordinates_nothing_geocoded
              NumberToString_upto_999 ToNumber_digits toFixed_whole (fun _ => None)
              (nodes harbour_panel) (selectedNodes harbour_panel)
              (mapProps (MapPanel harbour_panel no_route)) (js "dark") query_idle
              eq_refl) as (_ & _ & _ & _ & _ & H).
  destruct (H somewhere ltac:(now left) eq_refl eq_refl eq_refl) as (_ & _ & Hm).
  exact (Hm id h Er).
Defined.

(** C10 (as stated, refuted): a location node that has no latitude and no
    longitude, and whose address is written in kanji. It passes the
    panel's filter, but the render of the map throws at line 110 whatever
    the geocoding query holds: no element is committed, no effect runs,
    and the node gets no marker. *)
Lemma C10_location_without_marker :
  isLocationNode tokyo_location = true
  /\ Graph.latitude (Graph.nodeProperties tokyo_location) = None
  /\ Graph.longitude (Graph.nodeProperties tokyo_location) = None
  /\ In (toLocationPoint [] tokyo_location)
        (locations (mapProps (MapPanel tokyo_panel no_route)))
  /\ (forall NumberToString ToNumber toFixed L_polygon theme q,
        MapFromAddress_mount NumberToString ToNumber toFixed L_polygon
                             (mapProps (MapPanel tokyo_panel no_route)) theme q
        = RenderThrows InvalidCharacterError).
Proof.
  split; [reflexivity|]. split; [reflexivity|]. split; [reflexivity|].
  split; [now left|].
  intros N2S ToNumber toFixed L_polygon theme q. unfold MapFromAddress_mount.
  rewrite (MapFromAddress_throws_on_wide_address N2S _ q
             (toLocationPoint [] tokyo_location) tokyo 26481%N).
  - reflexivity.
  - now left.
  - reflexivity.
  - now left.
  - reflexivity.
Qed.

Lemma X1_witness :
  exists id h w,
    MapFromAddress NumberToString_upto_999
                   (mapProps (MapPanel harbour_panel route_found)) query_idle
    = Ok (MapSurface id h)
    /\ run_effect ToNumber_digits toFixed_whole (fun _ => None)
                  (mapProps (MapPanel harbour_panel route_found))
                  (js "dark") query_idle (MapSurface id h) = EffectDone w
    /\ map is_route_fit (viewCalls w) = [true; false]
    /\ final_view w = Some (setView (0%float, 0%float) 15%float).
Proof.
  assert (Er : exists id h,
             MapFromAddress NumberToString_upto_999
                            (mapProps (MapPanel harbour_panel route_found)) query_idle
             = Ok (MapSurface id h)) by (vm_compute; eauto).
  destruct Er as (id & h & Er). exists id, h.
  destruct (run_effect ToNumber_digits toFixed_whole (fun _ => None)
                       (mapProps (MapPanel harbour_panel route_found))
                       (js "dark") query_idle (MapSurface id h))
    as [ | e b | w] eqn:E; try (vm_compute in E; discriminate).
  exists w. split; [exact Er|]. split; [reflexivity|].
  destruct (X1_last_view_call_is_never_the_route_fit
              ToNumber_digits toFixed_whole (fun _ => None) _ _ _ _ w E)
    as (v & first & rest & Hv & _ & Hc & ->).
  vm_compute in Hc. injection Hc as <- <-.
  vm_compute in E. injection E as <-. split; [reflexivity | exact Hv].
Defined.

Lemma X3_witness :
  exists id h built,
    MapFromAddress NumberToString_upto_999
                   (props_of [harbour_point; nan_point; quay_point] None) query_idle
    = Ok (MapSurface id h)
    /\ run_effect ToNumber_digits toFixed_whole (fun _ => None)
                  (props_of [harbour_point; nan_point; quay_point] None)
                  (js "dark") query_idle (MapSurface id h)
       = EffectThrows InvalidLatLngObject (Some built)
    /\ map position (markers built) = [(1%float, 2%float)]
    /\ viewCalls built = [].
Proof.
  assert (Er : exists id h,
             MapFromAddress NumberToString_upto_999
                            (props_of [harbour_point; nan_point; quay_point] None)
                            query_idle
             = Ok (MapSurface id h)) by (vm_compute; eauto).
  destruct Er as (id & h & Er). exists id, h.
  destruct (X3_nan_coordinate_throws_in_the_marker_loop
              ToNumber_digits toFixed_whole (fun _ => None)
              (props_of [harbour_point; nan_point; quay_point] None)
              (js "dark") query_idle id h
              {| Geo.lat := nan; Geo.lon := 2%float |}
              ltac:(right; left; reflexivity) eq_refl)
    as (built & Hb & _ & _ & _ & _ & Hv).
  exists built. split; [exact Er|]. split; [exact Hb|]. split; [|exact Hv].
  vm_compute in Hb. injection Hb as <-. reflexivity.
Defined.

Lemma X4_witness :
  exists id h w pl,
    MapFromAddress NumberToString_upto_999
                   (mapProps (MapPanel harbour_panel route_found)) query_idle
    = Ok (MapSurface id h)
    /\ run_effect ToNumber_digits toFixed_whole (fun _ => None)
                  (mapProps (MapPanel harbour_panel route_found))
                  (js "dark") query_idle (MapSurface id h) = EffectDone w
    /\ polyline w = Some pl
    /\ path pl = [(0%float, 0%float); (1%float, 1%float)]
    /\ lineColor pl = js "#3b82f6"
    /\ linePopup pl = Some (js "Route: 2.00 km").
Proof.
  assert (Er : exists id h,
             MapFromAddress NumberToString_upto_999
                            (mapProps (MapPanel harbour_panel route_found)) query_idle
             = Ok (MapSurface id h)) by (vm_compute; eauto).
  destruct Er as (id & h & Er). exists id, h.
  destruct (run_effect ToNumber_digits toFixed_whole (fun _ => None)
                       (mapProps (MapPanel harbour_panel route_found))
                       (js "dark") query_idle (MapSurface id h))
    as [ | e b | w] eqn:E; try (vm_compute in E; discriminate).
  exists w.
  pose proof (proj1 (X4_panel_route_polyline
                       ToNumber_digits toFixed_whole (fun _ => None)
                       harbour_panel route_found (js "dark") query_idle _ w E)) as H.
  destruct (polyline w) as [pl|] eqn:Ep.
  - destruct H as (d & Hd & _ & _ & Hpath & _ & Hcol & Hpop).
    injection Hd as <-. exists pl.
    split; [exact Er|]. split; [reflexivity|]. split; [reflexivity|].
    split; [exact Hpath|]. split; [exact Hcol|]. rewrite Hpop. vm_compute. reflexivity.
  - exfalso. destruct (H _ eq_refl) as [Hs | Hl]; [discriminate|].
    vm_compute in Hl. lia.
Defined.

Lemma X5_witness :
  exists id h w,
    MapFromAddress NumberToString_upto_999
                   (props_of [harbour_point; nice_by_address; quay_point] None)
                   query_idle
    = Ok (MapSurface id h)
    /\ run_effect ToNumber_digits toFixed_whole (fun _ => None)
                  (props_of [harbour_point; nice_by_address; quay_point] None)
                  (js "dark") query_idle (MapSurface id h) = EffectDone w
    /\ container w = id
    /\ map position (markers w)
       = [(1%float, 2%float); (3%float, 4%float)].
Proof.
  assert (Er : exists id h,
             MapFromAddress NumberToString_upto_999
                            (props_of [harbour_point; nice_by_address; quay_point] None)
                            query_idle
             = Ok (MapSurface id h)) by (vm_compute; eauto).
  destruct Er as (id & h & Er). exists id, h.
  destruct (run_effect ToNumber_digits toFixed_whole (fun _ => None)
                       (props_of [harbour_point; nice_by_address; quay_point] None)
                       (js "dark") query_idle (MapSurface id h))
    as [ | e b | w] eqn:E; try (vm_compute in E; discriminate).
  exists w.
  destruct (X5_one_marker_per_resolved_coordinate
              ToNumber_digits toFixed_whole (fun _ => None) _ _ _ _ w E)
    as ((h' & He) & Hpos & _).
  split; [exact Er|]. split; [reflexivity|]. split; [congruence|].
  rewrite Hpos. reflexivity.
Defined.


Lemma X14_witness :
  MapFromAddress_mount NumberToString_upto_999 ToNumber_digits toFixed_whole
                       (fun _ => None)
                       (props_of [harbour_point; nice_by_address] None)
                       (js "dark") query_loading
  = Committed LoadingMapData (EffectThrows MapContainerNotFound None).
Proof.
  destruct (mapId NumberToString_upto_999 (props_of [harbour_point; nice_by_address] None))
    as [id|e] eqn:E; [|vm_compute in E; discriminate].
  exact (X14_effect_throws_behind_placeholder
           NumberToString_upto_999 ToNumber_digits toFixed_whole (fun _ => None)
           (props_of [harbour_point; nice_by_address] None) (js "dark") query_loading
           id harbour_point 1%float 2%float E (or_introl eq_refl)
           (or_introl eq_refl) eq_refl eq_refl).
Defined.
